(** * Gemini image-editing quickstart: the [POST] route handler

    A shallow embedding of the server endpoint of the repository (the
    route handler that follows [ImagePromptInput] in
    [src/components/ImagePromptInput.tsx], lines 88-339): request
    validation, the conversion of the application's conversation history
    to the chat format of the model API, the construction of the
    current-turn message, the call of the external model, and the decoding
    of its reply into the JSON envelope.

    JavaScript strings are modelled by [string]; a character stands for a
    code unit in the range 0..255.  The external model is a function given
    to the handler; the handler returns its response together with the log
    of the calls it made to that function. *)

From Stdlib Require Import String Ascii List Bool Arith Lia.
Import ListNotations.
Open Scope string_scope.
Open Scope list_scope.

(** ** JavaScript string primitives used by the handler *)

Module Js.

(** [!!s] for a string: only the empty string is falsy. *)
Definition truthy (s : string) : bool := negb (s =? "").

(** [!!v] for an optional string: [undefined] is falsy. *)
Definition truthyOpt (v : option string) : bool :=
  match v with
  | Some s => truthy s
  | None => false
  end.

(** [s.startsWith(p)] *)
Definition startsWith (s p : string) : bool := String.prefix p s.

(** [s.includes(pat)]: [pat] occurs at some position of [s]. *)
Fixpoint includes (s pat : string) : bool :=
  String.prefix pat s ||
  match s with
  | EmptyString => false
  | String _ s' => includes s' pat
  end.

(** [s.split(sep)] for a one-character separator: every occurrence of
    the separator ends a segment; the result always has a first
    segment. *)
Fixpoint split (sep : ascii) (s : string) : list string :=
  match s with
  | EmptyString => [EmptyString]
  | String c s' =>
      if Ascii.eqb c sep then EmptyString :: split sep s'
      else match split sep s' with
           | seg :: segs => String c seg :: segs
           | [] => [String c EmptyString]
           end
  end.

(** The class [\s] on code units below 256: tab, line feed, vertical
    tab, form feed, carriage return, space and no-break space. *)
Definition isSpace (c : ascii) : bool :=
  let n := nat_of_ascii c in
  (((9 <=? n) && (n <=? 13)) || (n =? 32) || (n =? 160))%nat.

(** [s.replace(/\s/g, "")] *)
Fixpoint stripSpace (s : string) : string :=
  match s with
  | EmptyString => EmptyString
  | String c s' =>
      if isSpace c then stripSpace s' else String c (stripSpace s')
  end.

(** The class [[A-Za-z0-9+/=]]. *)
Definition isBase64Char (c : ascii) : bool :=
  let n := nat_of_ascii c in
  (((65 <=? n) && (n <=? 90)) || ((97 <=? n) && (n <=? 122)) ||
   ((48 <=? n) && (n <=? 57)) || (n =? 43) || (n =? 47) || (n =? 61))%nat.

Fixpoint allChars (p : ascii -> bool) (s : string) : bool :=
  match s with
  | EmptyString => true
  | String c s' => p c && allChars p s'
  end.

(** [/^([A-Za-z0-9+/=]+)$/.test(s)]: one or more characters, all of
    the class. *)
Definition testBase64 (s : string) : bool :=
  match s with
  | EmptyString => false
  | String _ _ => allChars isBase64Char s
  end.

(** Number of occurrences of a character. *)
Fixpoint countChar (c : ascii) (s : string) : nat :=
  match s with
  | EmptyString => 0
  | String d s' => (if Ascii.eqb d c then 1 else 0) + countChar c s'
  end.

(** [s.substring(s.indexOf(sep) + 1)] when [sep] occurs in [s]: the
    text after the first separator. *)
Fixpoint afterFirst (sep : ascii) (s : string) : option string :=
  match s with
  | EmptyString => None
  | String c s' => if Ascii.eqb c sep then Some s' else afterFirst sep s'
  end.

(** The text before the first separator (all of [s] if there is
    none). *)
Fixpoint beforeFirst (sep : ascii) (s : string) : string :=
  match s with
  | EmptyString => EmptyString
  | String c s' =>
      if Ascii.eqb c sep then EmptyString else String c (beforeFirst sep s')
  end.

End Js.

(** ** Data model *)

(** Modelled from the spec: the module [@/lib/types] that declares
    [HistoryItem] and [HistoryPart] is not among the sources; the types
    follow section 3 of the specification (a turn has a role and an
    ordered sequence of parts, a part has an optional text and an optional
    image data URL) and the way the handler and the history view read
    them ([item.role], [item.parts], [part.text], [part.image]). *)
Inductive Role : Type := user | model.

Record HistoryPart : Type := mkHistoryPart {
  text : option string;
  image : option string
}.

Record HistoryItem : Type := mkHistoryItem {
  role : Role;
  parts : list HistoryPart
}.

Definition Role_eqb (a b : Role) : bool :=
  match a, b with
  | user, user | model, model => true
  | _, _ => false
  end.

(** The blob of an inline-data part: [{ data: string; mimeType: string }]. *)
Record InlineData : Type := mkInlineData {
  data : string;
  mimeType : string
}.

(** A part of the model API: [{ text?: string; inlineData?: ... }].  A
    field that is [None] is absent from the object. *)
Record Part : Type := mkPart {
  part_text : option string;
  inlineData : option InlineData
}.

Definition textPart (s : string) : Part := mkPart (Some s) None.
Definition inlineDataPart (d m : string) : Part :=
  mkPart None (Some (mkInlineData d m)).

(** [Object.keys(part).length] *)
Definition keysLength (p : Part) : nat :=
  (match part_text p with Some _ => 1 | None => 0 end) +
  (match inlineData p with Some _ => 1 | None => 0 end).

(** [interface FormattedHistoryItem] *)
Record FormattedHistoryItem : Type := mkFormattedHistoryItem {
  fmt_role : Role;
  fmt_parts : list Part
}.

(** The request body after [req.json()]: [{ prompt, image, history }],
    each field possibly absent.  The fields have the types the code
    declares for them: strings, and an array of turns with arrays of
    parts.  A body of another shape (a turn without [parts], a history
    that is not an array, a prompt that is not a string) is not covered:
    on such a body the encoding of the history can fault inside the inner
    [try], which the handler answers with its 500 envelope without calling
    the model. *)
Record RequestData : Type := mkRequestData {
  prompt : option string;
  inputImage : option string;
  history : option (list HistoryItem)
}.

(** ** History codec: lines 185-215 *)

(** The mime type inferred from a data URL by substring match. *)
Definition inferMimeType (url : string) : string :=
  if Js.includes url "image/png" then "image/png" else "image/jpeg".

(** Lines 196-209 of the part mapper: a part without usable text.  An
    image of a [user] turn becomes an inline-data part when its data URL
    splits into more than one segment; everything else falls through to
    [{ text: "" }]. *)
Definition formatImagePart (r : Role) (part : HistoryPart) : Part :=
  match image part with
  | Some img =>
      if Js.truthy img && Role_eqb r user then
        match Js.split "," img with
        | _ :: seg1 :: _ => inlineDataPart seg1 (inferMimeType img)
        | _ => textPart ""
        end
      else textPart ""
  | None => textPart ""
  end.

(** The part mapper of lines 192-210, for a part of a turn of role [r]. *)
Definition formatPart (r : Role) (part : HistoryPart) : Part :=
  match text part with
  | Some t => if Js.truthy t then textPart t else formatImagePart r part
  | None => formatImagePart r part
  end.

(** The item mapper of lines 188-213: the role is kept, the parts are
    mapped and then filtered on their number of keys. *)
Definition formatItem (item : HistoryItem) : FormattedHistoryItem :=
  mkFormattedHistoryItem (role item)
    (filter (fun p => (0 <? keysLength p)%nat)
            (map (formatPart (role item)) (parts item))).

(** [formattedHistory], lines 185-215, as a function of [history]. *)
Definition formattedHistory (h : option (list HistoryItem))
  : list FormattedHistoryItem :=
  match h with
  | Some items =>
      if (0 <? List.length items)%nat then
        filter (fun item => (0 <? List.length (fmt_parts item))%nat)
               (map formatItem items)
      else []
  | None => []
  end.

(** ** The external model and the values it exchanges with the handler *)

(** A value caught by [catch (error)]: an [Error] instance with its
    [message], or any other thrown value, given by its [String(...)]
    conversion. *)
Inductive Thrown : Type :=
  | ErrorObject (message : string)
  | OtherValue (asString : string).

(** A candidate of the reply.  The handler reads
    [candidates[0].content.parts]; a candidate without [content] makes
    that read fault. *)
Record Candidate : Type := mkCandidate {
  content : option (list Part)
}.

(** [result.response] *)
Record GenerateContentResponse : Type := mkResponse {
  candidates : option (list Candidate)
}.

(** One call of the external model: the chat history given to
    [model.startChat] and the parts given to [chat.sendMessage]. *)
Record ModelCall : Type := mkModelCall {
  call_history : list FormattedHistoryItem;
  call_message : list Part
}.

(** The external model: opening the chat and sending the message either
    throws or yields a response. *)
Definition Model : Type :=
  list FormattedHistoryItem -> list Part -> Thrown + GenerateContentResponse.

(** The JSON envelope given to [NextResponse.json]; a field that is
    [None] is absent.  [description] is present on success and may be
    [null]. *)
Record JsonBody : Type := mkJsonBody {
  success : bool;
  error : option string;
  details : option string;
  res_image : option string;
  description : option (option string)
}.

Record NextResponse : Type := mkNextResponse {
  json : JsonBody;
  status : nat
}.

Definition failure (err : string) (det : option string) (st : nat)
  : NextResponse :=
  mkNextResponse (mkJsonBody false (Some err) det None None) st.

(** ** Request handler *)

(** Image validation, lines 156-181: [Some r] is the early return.  The
    image is a string here, as the request interface declares it, so the
    [typeof] test of line 157 holds. *)
Definition validateImage (img : option string) : option NextResponse :=
  match img with
  | Some s =>
      if Js.truthy s then
        if negb (Js.startsWith s "data:") then
          Some (failure "Invalid image data URL format" None 400)
        else
          let imageParts := Js.split "," s in
          if (List.length imageParts <? 2)%nat then
            Some (failure "Malformed image data URL" None 400)
          else
            let base64Image := nth 1 imageParts "" in
            if negb (Js.truthy base64Image)
               || negb (Js.testBase64 (Js.stripSpace base64Image)) then
              Some (failure "Image data is empty or not valid base64" None 400)
            else None
      else None
  | None => None
  end.

(** [messageParts], lines 222-261, as a function of the prompt and the
    image; the two [throw]s are kept. *)
Definition messageParts (p : string) (img : option string)
  : Thrown + list Part :=
  let promptPart := [textPart p] in
  match img with
  | Some s =>
      if Js.truthy s then
        if negb (Js.startsWith s "data:") then
          inl (ErrorObject "Invalid image data URL format")
        else
          let imageParts := Js.split "," s in
          if (List.length imageParts <? 2)%nat then
            inl (ErrorObject "Invalid image data URL format")
          else
            let base64Image := nth 1 imageParts "" in
            inr (promptPart ++ [inlineDataPart base64Image (inferMimeType s)])
      else inr promptPart
  | None => inr promptPart
  end.

(** The body of the inner [try], lines 183-265: the outcome and the calls
    made to the model.  Opening the chat with the encoded history
    ([model.startChat]) and sending the message ([chat.sendMessage]) are
    one call of the external model; it is logged with both arguments.  On
    a history of the declared shape the encoding of lines 185-215 does not
    fault, so the only faults of this block are the [throw]s of the
    message and the call itself. *)
Definition invoke (sendMessage : Model) (p : string) (rd : RequestData)
  : (Thrown + GenerateContentResponse) * list ModelCall :=
  let fh := formattedHistory (history rd) in
  match messageParts p (inputImage rd) with
  | inl e => (inl e, [])
  | inr parts => (sendMessage fh parts, [mkModelCall fh parts])
  end.

(** The variables of the response scan, lines 277-279. *)
Record Scan : Type := mkScan {
  textResponse : option string;
  imageData : option string;
  scan_mimeType : string
}.

Definition initialScan : Scan := mkScan None None "image/png".

(** One iteration of the loop of lines 286-305. *)
Definition scanPart (st : Scan) (part : Part) : Scan :=
  match inlineData part with
  | Some blob =>
      mkScan (textResponse st) (Some (data blob))
             (if Js.truthy (mimeType blob) then mimeType blob else "image/png")
  | None =>
      match part_text part with
      | Some t =>
          if Js.truthy t then mkScan (Some t) (imageData st) (scan_mimeType st)
          else st
      | None => st
      end
  end.

(** The message of the [TypeError] of reading [.parts] of [undefined]. *)
Definition typeErrorMessage : string :=
  "Cannot read properties of undefined (reading 'parts')".

(** Response processing, lines 275-327. *)
Definition decodeResponse (response : GenerateContentResponse)
  : Thrown + NextResponse :=
  match candidates response with
  | Some (c :: _) =>
      match content c with
      | Some ps =>
          let st := fold_left scanPart ps initialScan in
          match imageData st with
          | Some d =>
              if Js.truthy d then
                inr (mkNextResponse
                       (mkJsonBody true None None
                          (Some ("data:" ++ scan_mimeType st ++ ";base64," ++ d)%string)
                          (Some (textResponse st)))
                       200)
              else inr (failure "No image data in Gemini response" None 500)
          | None => inr (failure "No image data in Gemini response" None 500)
          end
      | None => inl (ErrorObject typeErrorMessage)
      end
  | _ => inr (failure "No response from Gemini API" None 500)
  end.

(** [error instanceof Error ? error.message : ...] of the inner catch. *)
Definition innerMessage (e : Thrown) : string :=
  match e with
  | ErrorObject m => m
  | OtherValue _ => "Unknown error in AI processing"
  end.

(** [error instanceof Error ? error.message : String(error)] of the outer
    catch. *)
Definition outerMessage (e : Thrown) : string :=
  match e with
  | ErrorObject m => m
  | OtherValue s => s
  end.

(** The body of the outer [try], lines 110-327.  [GEMINI_API_KEY] is the
    configured key, [requestData] the parsed body ([None] when parsing
    failed or gave a falsy value). *)
Definition POST_try (GEMINI_API_KEY : string) (sendMessage : Model)
    (requestData : option RequestData)
  : (Thrown + NextResponse) * list ModelCall :=
  if negb (Js.truthy GEMINI_API_KEY) then
    (inr (failure "GEMINI_API_KEY is not configured" None 500), [])
  else
    match requestData with
    | None => (inr (failure "Invalid JSON in request body" None 400), [])
    | Some rd =>
        match prompt rd with
        | Some p =>
            if Js.truthy p then
              match validateImage (inputImage rd) with
              | Some r => (inr r, [])
              | None =>
                  match invoke sendMessage p rd with
                  | (inl e, calls) =>
                      (inr (failure "Gemini API error"
                              (Some (innerMessage e)) 500), calls)
                  | (inr response, calls) => (decodeResponse response, calls)
                  end
              end
            else (inr (failure "Prompt is required" None 400), [])
        | None => (inr (failure "Prompt is required" None 400), [])
        end
    end.

(** The handler: the outer [catch] of lines 328-338 turns a fault of the
    body into a 500 envelope. *)
Definition POST (GEMINI_API_KEY : string) (sendMessage : Model)
    (requestData : option RequestData) : NextResponse * list ModelCall :=
  match POST_try GEMINI_API_KEY sendMessage requestData with
  | (inl e, calls) =>
      (failure "Failed to generate image" (Some (outerMessage e)) 500, calls)
  | (inr r, calls) => (r, calls)
  end.

(** ** Facts about the string primitives *)

Section JsFacts.

Variable sep : ascii.

Lemma split_nonempty (s : string) : Js.split sep s <> [].
Proof.
  destruct s as [|c s]; simpl; [discriminate|].
  destruct (Ascii.eqb c sep); [discriminate|].
  destruct (Js.split sep s); discriminate.
Qed.

(** The first segment is the text before the first separator. *)
Lemma split_head (s : string) :
  exists segs, Js.split sep s = Js.beforeFirst sep s :: segs.
Proof.
  induction s as [|c s [segs IH]]; simpl.
  - now exists [].
  - destruct (Ascii.eqb c sep).
    + now exists (Js.split sep s).
    + rewrite IH. now exists segs.
Qed.

(** The remaining segments are those of the text after it. *)
Lemma split_afterFirst (s rest : string) :
  Js.afterFirst sep s = Some rest ->
  Js.split sep s = Js.beforeFirst sep s :: Js.split sep rest.
Proof.
  induction s as [|c s IH]; simpl; [discriminate|].
  destruct (Ascii.eqb c sep); intros H.
  - now inversion H.
  - now rewrite (IH H).
Qed.

Lemma split_no_sep (s : string) :
  Js.afterFirst sep s = None -> Js.split sep s = [s].
Proof.
  induction s as [|c s IH]; simpl; [reflexivity|].
  destruct (Ascii.eqb c sep); [discriminate|].
  intros H. now rewrite (IH H).
Qed.

Lemma split_length (s : string) :
  List.length (Js.split sep s) = S (Js.countChar sep s).
Proof.
  induction s as [|c s IH]; simpl; [reflexivity|].
  destruct (Ascii.eqb c sep); simpl.
  - now rewrite IH.
  - destruct (Js.split sep s); simpl in *; [discriminate|exact IH].
Qed.

Lemma afterFirst_none_count (s : string) :
  Js.afterFirst sep s = None <-> Js.countChar sep s = 0.
Proof.
  induction s as [|c s IH]; simpl; [tauto|].
  destruct (Ascii.eqb c sep); simpl; [split; discriminate|exact IH].
Qed.

Lemma afterFirst_count (s rest : string) :
  Js.afterFirst sep s = Some rest ->
  Js.countChar sep s = S (Js.countChar sep rest).
Proof.
  induction s as [|c s IH]; simpl; [discriminate|].
  destruct (Ascii.eqb c sep); simpl; intros H.
  - now inversion H.
  - now apply IH.
Qed.

Lemma beforeFirst_no_sep (s : string) :
  Js.countChar sep s = 0 -> Js.beforeFirst sep s = s.
Proof.
  induction s as [|c s IH]; simpl; [reflexivity|].
  destruct (Ascii.eqb c sep); simpl; [discriminate|].
  intros H. now rewrite (IH H).
Qed.

(** A text without separator followed by a separator and a rest. *)
Lemma afterFirst_app (a b : string) :
  Js.countChar sep a = 0 ->
  Js.afterFirst sep (a ++ String sep b) = Some b.
Proof.
  induction a as [|c a IH]; simpl.
  - now rewrite Ascii.eqb_refl.
  - destruct (Ascii.eqb c sep); simpl; [discriminate|exact IH].
Qed.

Lemma beforeFirst_app (a b : string) :
  Js.countChar sep a = 0 ->
  Js.beforeFirst sep (a ++ String sep b) = a.
Proof.
  induction a as [|c a IH]; simpl.
  - now rewrite Ascii.eqb_refl.
  - destruct (Ascii.eqb c sep); simpl; [discriminate|].
    intros H. now rewrite (IH H).
Qed.

Lemma split_app (a b : string) :
  Js.countChar sep a = 0 ->
  Js.split sep (a ++ String sep b) = a :: Js.split sep b.
Proof.
  intros H.
  rewrite (split_afterFirst _ _ (afterFirst_app a b H)).
  now rewrite beforeFirst_app.
Qed.

(** The second segment, when there is one, is the text after the first
    separator up to the next one. *)
Lemma split_second (s rest : string) :
  Js.afterFirst sep s = Some rest ->
  nth 1 (Js.split sep s) "" = Js.beforeFirst sep rest.
Proof.
  intros H. rewrite (split_afterFirst _ _ H). simpl.
  destruct (split_head rest) as [segs ->]. reflexivity.
Qed.

End JsFacts.

Lemma truthy_nonempty (s : string) : Js.truthy s = true <-> s <> "".
Proof.
  unfold Js.truthy. destruct (String.eqb_spec s ""); simpl; split;
    congruence.
Qed.

Lemma prefix_app (p s : string) :
  String.prefix p s = true <-> exists b, s = (p ++ b)%string.
Proof.
  revert s. induction p as [|c p IH]; intros s; simpl.
  - split; [intros _; now exists s|now destruct s].
  - destruct s as [|d s].
    + split; [discriminate|intros [b H]; discriminate].
    + simpl. destruct (ascii_dec c d) as [->|Hne].
      * rewrite IH. split; intros [b H]; exists b; congruence.
      * split; [discriminate|intros [b H]; congruence].
Qed.

Lemma includes_nil (pat : string) :
  Js.includes "" pat = String.prefix pat "".
Proof. simpl. apply orb_false_r. Qed.

Lemma includes_cons (c : ascii) (s pat : string) :
  Js.includes (String c s) pat =
  String.prefix pat (String c s) || Js.includes s pat.
Proof. reflexivity. Qed.

(** [includes] holds exactly when the pattern occurs somewhere. *)
Lemma includes_occurs (s pat : string) :
  Js.includes s pat = true <-> exists a b, s = (a ++ pat ++ b)%string.
Proof.
  induction s as [|c s IH].
  - rewrite includes_nil, prefix_app. split.
    + intros [b H]. now exists "", b.
    + intros [[|x a] [b H]]; [now exists b|discriminate].
  - rewrite includes_cons, orb_true_iff, IH, prefix_app. split.
    + intros [[b H]|[a [b H]]].
      * now exists "", b.
      * exists (String c a), b. simpl. now rewrite H.
    + intros [[|x a] [b H]].
      * left. now exists b.
      * right. exists a, b. simpl in H. congruence.
Qed.

(** Membership of a character in a string. *)
Fixpoint InStr (c : ascii) (s : string) : Prop :=
  match s with
  | EmptyString => False
  | String d s' => d = c \/ InStr c s'
  end.

Lemma allChars_false (p : ascii -> bool) (s : string) :
  Js.allChars p s = false <-> exists c, InStr c s /\ p c = false.
Proof.
  induction s as [|d s IH]; simpl.
  - split; [discriminate|intros [c [[] _]]].
  - rewrite andb_false_iff, IH. split.
    + intros [H|[c [Hin Hc]]]; [exists d|exists c]; tauto.
    + intros [c [[->|Hin] Hc]]; [now left|right; now exists c].
Qed.

Lemma testBase64_false (s : string) :
  Js.testBase64 s = false <->
  s = "" \/ exists c, InStr c s /\ Js.isBase64Char c = false.
Proof.
  unfold Js.testBase64. destruct s as [|d s].
  - split; [now left|reflexivity].
  - rewrite allChars_false. split; [now right|].
    intros [H|H]; [discriminate|exact H].
Qed.

(** ** Facts about the history codec *)

Lemma filter_all {A : Type} (f : A -> bool) (l : list A) :
  (forall x, In x l -> f x = true) -> filter f l = l.
Proof.
  induction l as [|x l IH]; simpl; intros H; [reflexivity|].
  rewrite (H x (or_introl eq_refl)). f_equal. apply IH. intros y Hy.
  apply H. now right.
Qed.

(** Every part the mapper returns is one of three objects with one key. *)
Lemma formatPart_shape (r : Role) (p : HistoryPart) :
  (exists t, t <> "" /\ formatPart r p = textPart t) \/
  (exists d m, formatPart r p = inlineDataPart d m) \/
  formatPart r p = textPart "".
Proof.
  unfold formatPart, formatImagePart.
  destruct (text p) as [t|].
  - destruct (Js.truthy t) eqn:Ht.
    + left. exists t. split; [now apply truthy_nonempty|reflexivity].
    + right. destruct (image p) as [img|]; [|now right].
      destruct (Js.truthy img && Role_eqb r user); [|now right].
      destruct (Js.split "," img) as [|s0 [|s1 segs]]; [now right..|].
      left. now exists s1, (inferMimeType img).
  - right. destruct (image p) as [img|]; [|now right].
    destruct (Js.truthy img && Role_eqb r user); [|now right].
    destruct (Js.split "," img) as [|s0 [|s1 segs]]; [now right..|].
    left. now exists s1, (inferMimeType img).
Qed.

Lemma formatPart_keys (r : Role) (p : HistoryPart) :
  keysLength (formatPart r p) = 1.
Proof.
  destruct (formatPart_shape r p) as [[t [_ ->]]|[[d [m ->]]| ->]];
    reflexivity.
Qed.

(** The filter on parts therefore removes nothing. *)
Lemma formatItem_parts (item : HistoryItem) :
  fmt_parts (formatItem item) = map (formatPart (role item)) (parts item).
Proof.
  unfold formatItem. simpl. apply filter_all. intros w Hw.
  apply in_map_iff in Hw. destruct Hw as [p [<- _]].
  now rewrite formatPart_keys.
Qed.

Lemma formatItem_role (item : HistoryItem) :
  fmt_role (formatItem item) = role item.
Proof. reflexivity. Qed.

Lemma formatItem_length (item : HistoryItem) :
  List.length (fmt_parts (formatItem item)) = List.length (parts item).
Proof. rewrite formatItem_parts. apply length_map. Qed.

Definition hasParts (item : HistoryItem) : bool :=
  (0 <? List.length (parts item))%nat.

(** The filter on turns removes exactly the turns without parts. *)
Lemma formatHistory_items (items : list HistoryItem) :
  formattedHistory (Some items) = map formatItem (filter hasParts items).
Proof.
  unfold formattedHistory. destruct items as [|i0 items]; [reflexivity|].
  change (0 <? List.length (i0 :: items))%nat with true. cbv iota.
  generalize (i0 :: items). intros l.
  induction l as [|i l IH]; [reflexivity|].
  cbn [map filter]. rewrite formatItem_length. unfold hasParts at 1.
  destruct (0 <? List.length (parts i))%nat; cbn [map]; now rewrite IH.
Qed.

Lemma formatHistory_In (items : list HistoryItem) (item : HistoryItem) :
  In item items -> parts item <> [] ->
  In (formatItem item) (formattedHistory (Some items)).
Proof.
  intros Hin Hne. rewrite formatHistory_items. apply in_map.
  apply filter_In. split; [exact Hin|].
  unfold hasParts. destruct (parts item); [congruence|reflexivity].
Qed.

(** A part without usable text of a [model] turn. *)
Lemma formatPart_model (p : HistoryPart) :
  Js.truthyOpt (text p) = false -> formatPart model p = textPart "".
Proof.
  unfold formatPart, formatImagePart, Js.truthyOpt.
  destruct (text p) as [t|]; intros H; [rewrite H|];
    destruct (image p) as [img|]; try reflexivity;
    now rewrite andb_false_r.
Qed.

(** ** Encoding of the history *)

(** A turn whose parts contain an image and no non-empty text. *)
Definition imageOnlyTurn (item : HistoryItem) : Prop :=
  (exists p, In p (parts item) /\ image p <> None) /\
  (forall p, In p (parts item) -> Js.truthyOpt (text p) = false).

Definition modelImageTurn : HistoryItem :=
  mkHistoryItem model [mkHistoryPart None (Some "data:image/png;base64,AAAA")].

(** C1, as stated, fails: the [model] turn [modelImageTurn] holds one
    image and no text, and the encoded history still has a wire turn for
    it, with the single part [{ text: "" }]. *)
Lemma model_image_turn_not_dropped :
  role modelImageTurn = model /\
  imageOnlyTurn modelImageTurn /\
  formattedHistory (Some [modelImageTurn]) =
    [mkFormattedHistoryItem model [textPart ""]] /\
  formattedHistory (Some [modelImageTurn]) <> [].
Proof.
  split; [reflexivity|]. split.
  - split.
    + eexists. split; [left; reflexivity|discriminate].
    + intros p [<-|[]]. reflexivity.
  - split; [reflexivity|discriminate].
Qed.

(** C1, amended: for a [model] turn whose parts contain an image and no
    non-empty text, every part is encoded as the empty-text part
    [{ text: "" }]; that part has one key, so the filter on parts keeps
    it, the wire turn has as many parts as the turn, and the wire turn is
    kept in the encoded history. *)
Theorem model_image_turn_kept (items : list HistoryItem) (item : HistoryItem) :
  In item items ->
  role item = model ->
  imageOnlyTurn item ->
  formatItem item =
    mkFormattedHistoryItem model (map (fun _ => textPart "") (parts item)) /\
  keysLength (textPart "") = 1 /\
  List.length (fmt_parts (formatItem item)) = List.length (parts item) /\
  fmt_parts (formatItem item) <> [] /\
  In (formatItem item) (formattedHistory (Some items)).
Proof.
  intros Hin Hrole [[p0 [Hp0 _]] Htext].
  assert (Hne : parts item <> []) by (destruct (parts item); [easy|discriminate]).
  assert (Hparts : fmt_parts (formatItem item) =
                   map (fun _ => textPart "") (parts item)).
  { rewrite formatItem_parts, Hrole. apply map_ext_in.
    intros p Hp. now apply formatPart_model, Htext. }
  repeat split.
  - change (formatItem item)
      with (mkFormattedHistoryItem (role item) (fmt_parts (formatItem item))).
    now rewrite Hrole, Hparts.
  - apply formatItem_length.
  - rewrite Hparts. destruct (parts item); [congruence|discriminate].
  - now apply formatHistory_In.
Qed.

Lemma model_image_turn_kept_witness :
  formatItem modelImageTurn = mkFormattedHistoryItem model [textPart ""].
Proof.
  refine (proj1 (model_image_turn_kept [modelImageTurn] modelImageTurn _ _ _)).
  - left. reflexivity.
  - reflexivity.
  - split.
    + eexists. split; [left; reflexivity|discriminate].
    + intros p [<-|[]]. reflexivity.
Defined.

(** C9: each part of each turn is mapped to exactly one wire part, a text
    part, an inline-data part or the empty-text part; each of them has a
    key, so the filter on parts keeps all of them; the filter on turns
    drops a wire turn exactly when the source turn has no parts; hence the
    encoded history is the sequence of the encoded turns that have parts,
    with their number and their numbers of parts preserved. *)
Theorem encoding_preserves_counts (items : list HistoryItem) :
  (forall r p,
      (exists t, t <> "" /\ formatPart r p = textPart t) \/
      (exists d m, formatPart r p = inlineDataPart d m) \/
      formatPart r p = textPart "") /\
  (forall r p, (0 <? keysLength (formatPart r p))%nat = true) /\
  (forall item,
      fmt_parts (formatItem item) = map (formatPart (role item)) (parts item)) /\
  (forall item, In item items ->
      (In (formatItem item) (formattedHistory (Some items)) <-> parts item <> [])) /\
  formattedHistory (Some items) = map formatItem (filter hasParts items) /\
  List.length (formattedHistory (Some items)) =
    List.length (filter hasParts items) /\
  map (fun w => List.length (fmt_parts w)) (formattedHistory (Some items)) =
    map (fun item => List.length (parts item)) (filter hasParts items).
Proof.
  split; [exact formatPart_shape|].
  split; [intros r p; now rewrite formatPart_keys|].
  split; [exact formatItem_parts|].
  split.
  - intros item Hin. split; [|now apply formatHistory_In].
    rewrite formatHistory_items, in_map_iff.
    intros [i [Heq Hi]] Hnil. apply filter_In in Hi. destruct Hi as [_ Hi].
    pose proof (formatItem_length i) as Hlen.
    rewrite Heq, formatItem_length, Hnil in Hlen.
    unfold hasParts in Hi. rewrite <- Hlen in Hi. discriminate.
  - rewrite formatHistory_items. split; [reflexivity|].
    split; [apply length_map|].
    rewrite map_map. apply map_ext. intros i. apply formatItem_length.
Qed.

Lemma encoding_preserves_counts_witness :
  formattedHistory
    (Some [mkHistoryItem user [];
           mkHistoryItem user [mkHistoryPart (Some "a cat") None];
           modelImageTurn]) =
    [mkFormattedHistoryItem user [textPart "a cat"];
     mkFormattedHistoryItem model [textPart ""]] /\
  (In (formatItem (mkHistoryItem user []))
      (formattedHistory
         (Some [mkHistoryItem user [];
                mkHistoryItem user [mkHistoryPart (Some "a cat") None];
                modelImageTurn])) <->
   parts (mkHistoryItem user []) <> []).
Proof.
  pose proof (encoding_preserves_counts
                [mkHistoryItem user [];
                 mkHistoryItem user [mkHistoryPart (Some "a cat") None];
                 modelImageTurn]) as [_ [_ [_ [Hin [Heq _]]]]].
  split.
  - rewrite Heq. reflexivity.
  - apply Hin. left. reflexivity.
Defined.

(** C10: a part of a [user] turn without non-empty text whose image data
    URL has no comma is encoded as the empty-text part [{ text: "" }],
    not as an inline-data part, and that part is in the wire turn that the
    encoded history keeps for the turn. *)
Theorem user_image_without_comma (items : list HistoryItem)
    (item : HistoryItem) (p : HistoryPart) (url : string) :
  In item items ->
  role item = user ->
  In p (parts item) ->
  Js.truthyOpt (text p) = false ->
  image p = Some url ->
  Js.countChar "," url = 0 ->
  formatPart user p = textPart "" /\
  inlineData (formatPart user p) = None /\
  In (textPart "") (fmt_parts (formatItem item)) /\
  fmt_role (formatItem item) = user /\
  In (formatItem item) (formattedHistory (Some items)).
Proof.
  intros Hin Hrole Hp Htext Himg Hcomma.
  assert (E : formatPart user p = textPart "").
  { unfold formatPart, formatImagePart. rewrite Himg.
    rewrite (split_no_sep _ _ (proj2 (afterFirst_none_count _ _) Hcomma)).
    unfold Js.truthyOpt in Htext.
    destruct (text p) as [t|]; [rewrite Htext|];
      now destruct (Js.truthy url && Role_eqb user user). }
  split; [exact E|]. split; [now rewrite E|]. split.
  - rewrite formatItem_parts, Hrole, <- E. now apply in_map.
  - split; [exact Hrole|]. apply formatHistory_In; [exact Hin|].
    destruct (parts item); [destruct Hp|discriminate].
Qed.

Lemma user_image_without_comma_witness :
  formatPart user (mkHistoryPart None (Some "data:image/png;base64")) =
    textPart "".
Proof.
  refine (proj1 (user_image_without_comma
           [mkHistoryItem user [mkHistoryPart None (Some "data:image/png;base64")]]
           (mkHistoryItem user [mkHistoryPart None (Some "data:image/png;base64")])
           (mkHistoryPart None (Some "data:image/png;base64"))
           "data:image/png;base64" _ _ _ _ _ _)).
  - left. reflexivity.
  - reflexivity.
  - left. reflexivity.
  - reflexivity.
  - reflexivity.
  - reflexivity.
Defined.

(** ** Mime type inference *)

Definition pngUrl (payload : string) : string :=
  ("data:image/png;base64," ++ payload)%string.

Definition jpegUrl (payload : string) : string :=
  ("data:image/jpeg;base64," ++ payload)%string.

Lemma includes_pngUrl (P : string) : Js.includes (pngUrl P) "image/png" = true.
Proof. reflexivity. Qed.

(** No occurrence of ["image/png"] starts in the prefix of a jpeg URL. *)
Lemma includes_jpegUrl (P : string) :
  Js.includes (jpegUrl P) "image/png" = Js.includes P "image/png".
Proof. reflexivity. Qed.

Lemma split_pngUrl (P : string) :
  Js.split "," (pngUrl P) = "data:image/png;base64" :: Js.split "," P.
Proof.
  change (pngUrl P) with ("data:image/png;base64" ++ String "," P)%string.
  now apply split_app.
Qed.

Lemma split_jpegUrl (P : string) :
  Js.split "," (jpegUrl P) = "data:image/jpeg;base64" :: Js.split "," P.
Proof.
  change (jpegUrl P) with ("data:image/jpeg;base64" ++ String "," P)%string.
  now apply split_app.
Qed.

Lemma inferMimeType_png (url : string) :
  inferMimeType url = "image/png" <-> Js.includes url "image/png" = true.
Proof.
  unfold inferMimeType. destruct (Js.includes url "image/png");
    split; congruence.
Qed.

Lemma inferMimeType_jpeg (url : string) :
  inferMimeType url = "image/jpeg" <-> Js.includes url "image/png" = false.
Proof.
  unfold inferMimeType. destruct (Js.includes url "image/png");
    split; congruence.
Qed.

(** The two encoders on a data URL with a comma. *)
Lemma formatPart_user_image (t : option string) (url : string) :
  Js.truthyOpt t = false -> url <> "" ->
  forall seg0 seg1 segs, Js.split "," url = seg0 :: seg1 :: segs ->
  formatPart user (mkHistoryPart t (Some url)) =
    inlineDataPart seg1 (inferMimeType url).
Proof.
  intros Ht Hurl seg0 seg1 segs Hs.
  unfold formatPart, formatImagePart. simpl.
  rewrite (proj2 (truthy_nonempty url) Hurl), Hs. simpl.
  destruct t as [t|]; [|reflexivity]. simpl in Ht. now rewrite Ht.
Qed.

Lemma messageParts_image (p url : string) :
  Js.startsWith url "data:" = true -> url <> "" ->
  forall seg0 seg1 segs, Js.split "," url = seg0 :: seg1 :: segs ->
  messageParts p (Some url) =
    inr [textPart p; inlineDataPart seg1 (inferMimeType url)].
Proof.
  intros Hd Hurl seg0 seg1 segs Hs. unfold messageParts.
  now rewrite (proj2 (truthy_nonempty url) Hurl), Hd, Hs.
Qed.

Section UrlForms.

Variable P : string.

Let jpegMime : string :=
  if Js.includes P "image/png" then "image/png" else "image/jpeg".

Lemma formatPart_pngUrl (t : option string) :
  Js.truthyOpt t = false ->
  formatPart user (mkHistoryPart t (Some (pngUrl P))) =
    inlineDataPart (Js.beforeFirst "," P) "image/png".
Proof.
  intros Ht. destruct (split_head "," P) as [segs HP].
  change "image/png" with (inferMimeType (pngUrl P)).
  apply (formatPart_user_image t (pngUrl P) Ht) with
    (seg0 := "data:image/png;base64") (segs := segs); [discriminate|].
  now rewrite split_pngUrl, HP.
Qed.

Lemma formatPart_jpegUrl (t : option string) :
  Js.truthyOpt t = false ->
  formatPart user (mkHistoryPart t (Some (jpegUrl P))) =
    inlineDataPart (Js.beforeFirst "," P) jpegMime.
Proof.
  intros Ht. destruct (split_head "," P) as [segs HP].
  change jpegMime with (inferMimeType (jpegUrl P)).
  apply (formatPart_user_image t (jpegUrl P) Ht) with
    (seg0 := "data:image/jpeg;base64") (segs := segs); [discriminate|].
  now rewrite split_jpegUrl, HP.
Qed.

Lemma messageParts_pngUrl (p : string) :
  messageParts p (Some (pngUrl P)) =
    inr [textPart p; inlineDataPart (Js.beforeFirst "," P) "image/png"].
Proof.
  destruct (split_head "," P) as [segs HP].
  change "image/png" with (inferMimeType (pngUrl P)).
  apply messageParts_image with
    (seg0 := "data:image/png;base64") (segs := segs);
    [reflexivity|discriminate|].
  now rewrite split_pngUrl, HP.
Qed.

Lemma messageParts_jpegUrl (p : string) :
  messageParts p (Some (jpegUrl P)) =
    inr [textPart p; inlineDataPart (Js.beforeFirst "," P) jpegMime].
Proof.
  destruct (split_head "," P) as [segs HP].
  change jpegMime with (inferMimeType (jpegUrl P)).
  apply messageParts_image with
    (seg0 := "data:image/jpeg;base64") (segs := segs);
    [reflexivity|discriminate|].
  now rewrite split_jpegUrl, HP.
Qed.

End UrlForms.

Definition jpegWithPngText : string := jpegUrl "image/pngAAA".

(** C5, as stated, fails: [jpegWithPngText] has the form
    [data:image/jpeg;base64,<P>], its payload is made of base64
    characters, and both encoders infer [image/png] for it. *)
Lemma jpeg_url_inferred_png :
  jpegWithPngText = "data:image/jpeg;base64,image/pngAAA" /\
  Js.testBase64 "image/pngAAA" = true /\
  formatPart user (mkHistoryPart None (Some jpegWithPngText)) =
    inlineDataPart "image/pngAAA" "image/png" /\
  messageParts "edit" (Some jpegWithPngText) =
    inr [textPart "edit"; inlineDataPart "image/pngAAA" "image/png"] /\
  inferMimeType jpegWithPngText <> "image/jpeg".
Proof. repeat split. discriminate. Qed.

(** C5, amended: for a data URL [data:image/png;base64,<P>] both encoders
    (the mapper of [user] history parts without text, and the builder of
    the current-turn message) infer [image/png]; for a data URL
    [data:image/jpeg;base64,<P>] they infer [image/jpeg] when [P] does not
    contain ["image/png"], and [image/png] when it does; in general the
    inferred type of [url] is [image/png] exactly when ["image/png"]
    occurs somewhere in [url], and [image/jpeg] otherwise. *)
Theorem mime_inference (P p url : string) (t : option string) :
  Js.truthyOpt t = false ->
  formatPart user (mkHistoryPart t (Some (pngUrl P))) =
    inlineDataPart (Js.beforeFirst "," P) "image/png" /\
  messageParts p (Some (pngUrl P)) =
    inr [textPart p; inlineDataPart (Js.beforeFirst "," P) "image/png"] /\
  formatPart user (mkHistoryPart t (Some (jpegUrl P))) =
    inlineDataPart (Js.beforeFirst "," P)
      (if Js.includes P "image/png" then "image/png" else "image/jpeg") /\
  messageParts p (Some (jpegUrl P)) =
    inr [textPart p;
         inlineDataPart (Js.beforeFirst "," P)
           (if Js.includes P "image/png" then "image/png" else "image/jpeg")] /\
  (inferMimeType url = "image/png" <->
     exists a b, url = (a ++ "image/png" ++ b)%string) /\
  (inferMimeType url = "image/jpeg" <->
     ~ exists a b, url = (a ++ "image/png" ++ b)%string).
Proof.
  intros Ht.
  split; [now apply formatPart_pngUrl|].
  split; [apply messageParts_pngUrl|].
  split; [now apply formatPart_jpegUrl|].
  split; [apply messageParts_jpegUrl|].
  split.
  - rewrite inferMimeType_png. apply includes_occurs.
  - rewrite inferMimeType_jpeg, <- includes_occurs.
    destruct (Js.includes url "image/png"); split; congruence.
Qed.

Lemma mime_inference_witness :
  formatPart user (mkHistoryPart (Some "") (Some (jpegUrl "AAAA"))) =
    inlineDataPart "AAAA" "image/jpeg".
Proof.
  refine (proj1 (proj2 (proj2 (mime_inference
            "AAAA" "edit" "data:image/png;base64,AAAA" (Some "") _)))).
  reflexivity.
Defined.

(** ** Round trip through encoder and decoder *)

Definition dataUrl (mime payload : string) : string :=
  ("data:" ++ mime ++ ";base64," ++ payload)%string.

(** A reply whose single candidate holds the single part [w]. *)
Definition singlePartResponse (w : Part) : GenerateContentResponse :=
  mkResponse (Some [mkCandidate (Some [w])]).

(** Encode the data URL of [(mime, payload)] as the image of a [user]
    history part, then decode a reply made of the resulting wire part. *)
Definition roundTrip (mime payload : string) : Thrown + NextResponse :=
  decodeResponse
    (singlePartResponse
       (formatPart user (mkHistoryPart None (Some (dataUrl mime payload))))).

Definition successResponse (img : string) (desc : option string)
  : NextResponse :=
  mkNextResponse (mkJsonBody true None None (Some img) (Some desc)) 200.

Lemma decode_single_inline (d m : string) :
  d <> "" -> m <> "" ->
  decodeResponse (singlePartResponse (inlineDataPart d m)) =
    inr (successResponse ("data:" ++ m ++ ";base64," ++ d)%string None).
Proof.
  intros Hd Hm. unfold decodeResponse. simpl.
  now rewrite (proj2 (truthy_nonempty d) Hd), (proj2 (truthy_nonempty m) Hm).
Qed.

(** C6, as stated, fails: for the mime type [image/gif] the encoder
    records [image/jpeg], and the decoder rebuilds a jpeg data URL. *)
Lemma roundtrip_gif_differs :
  roundTrip "image/gif" "AAAA" =
    inr (successResponse "data:image/jpeg;base64,AAAA" None) /\
  dataUrl "image/gif" "AAAA" = "data:image/gif;base64,AAAA" /\
  roundTrip "image/gif" "AAAA" <>
    inr (successResponse (dataUrl "image/gif" "AAAA") None).
Proof. repeat split. discriminate. Qed.

(** The other limits of the round trip: a payload with a comma is cut at
    the comma, an empty payload decodes to the no-image failure, and a
    jpeg payload that contains ["image/png"] comes back as png. *)
Example roundtrip_comma :
  roundTrip "image/png" "AAAA,BBBB" =
    inr (successResponse "data:image/png;base64,AAAA" None).
Proof. reflexivity. Qed.

Example roundtrip_empty_payload :
  roundTrip "image/png" "" =
    inr (failure "No image data in Gemini response" None 500).
Proof. reflexivity. Qed.

Example roundtrip_jpeg_png_text :
  roundTrip "image/jpeg" "image/pngAAA" =
    inr (successResponse "data:image/png;base64,image/pngAAA" None).
Proof. reflexivity. Qed.

(** C6, amended: for the mime types [image/png] and [image/jpeg] and a
    non-empty payload without comma (and, for [image/jpeg], without the
    text ["image/png"]), encoding the data URL
    [data:<mime>;base64,<payload>] into an inline-data wire part and
    decoding a reply made of that single part gives the success envelope
    whose image is that data URL. *)
Theorem roundtrip_png_jpeg (mime payload : string) :
  mime = "image/png" \/
    (mime = "image/jpeg" /\ Js.includes payload "image/png" = false) ->
  payload <> "" ->
  Js.countChar "," payload = 0 ->
  formatPart user (mkHistoryPart None (Some (dataUrl mime payload))) =
    inlineDataPart payload mime /\
  roundTrip mime payload =
    inr (successResponse (dataUrl mime payload) None).
Proof.
  intros Hmime Hne Hcomma.
  assert (Hseg : Js.beforeFirst "," payload = payload)
    by now apply beforeFirst_no_sep.
  assert (E : formatPart user (mkHistoryPart None (Some (dataUrl mime payload)))
              = inlineDataPart payload mime).
  { destruct Hmime as [->|[-> Hinc]].
    - change (dataUrl "image/png" payload) with (pngUrl payload).
      now rewrite formatPart_pngUrl, Hseg.
    - change (dataUrl "image/jpeg" payload) with (jpegUrl payload).
      now rewrite formatPart_jpegUrl, Hseg, Hinc. }
  split; [exact E|].
  unfold roundTrip. rewrite E.
  rewrite decode_single_inline; [reflexivity|exact Hne|].
  destruct Hmime as [->|[-> _]]; discriminate.
Qed.

Lemma roundtrip_png_jpeg_witness :
  roundTrip "image/jpeg" "QUJD" =
    inr (successResponse "data:image/jpeg;base64,QUJD" None).
Proof.
  refine (proj2 (roundtrip_png_jpeg "image/jpeg" "QUJD" _ _ _)).
  - right. split; reflexivity.
  - discriminate.
  - reflexivity.
Defined.

(** ** Facts about the handler *)

(** A model that answers every call with [r]. *)
Definition stubModel (r : Thrown + GenerateContentResponse) : Model :=
  fun _ _ => r.

(** A request that passes the checks of lines 111-181. *)
Definition validRequest (key : string) (rd : RequestData) (p : string)
  : Prop :=
  Js.truthy key = true /\
  prompt rd = Some p /\
  Js.truthy p = true /\
  validateImage (inputImage rd) = None.

(** The inline-data part of the current turn, if an image is given. *)
Definition editImageParts (img : option string) : list Part :=
  match img with
  | Some url =>
      if Js.truthy url then
        [inlineDataPart (nth 1 (Js.split "," url) "") (inferMimeType url)]
      else []
  | None => []
  end.

(** After validation the builder of the message does not throw. *)
Lemma messageParts_valid (p : string) (img : option string) :
  validateImage img = None ->
  messageParts p img = inr (textPart p :: editImageParts img).
Proof.
  unfold validateImage, messageParts, editImageParts.
  destruct img as [url|]; [|reflexivity].
  destruct (Js.truthy url); [|reflexivity].
  destruct (Js.startsWith url "data:"); simpl; [|discriminate].
  destruct (List.length (Js.split "," url) <? 2)%nat; [discriminate|].
  reflexivity.
Qed.

(** The response to a request whose checks pass: one call of the model,
    then the inner catch, the decoder or the outer catch. *)
Definition respond (outcome : Thrown + GenerateContentResponse)
  : NextResponse :=
  match outcome with
  | inl e => failure "Gemini API error" (Some (innerMessage e)) 500
  | inr response =>
      match decodeResponse response with
      | inl e => failure "Failed to generate image" (Some (outerMessage e)) 500
      | inr r => r
      end
  end.

Lemma POST_valid (key : string) (m : Model) (rd : RequestData) (p : string) :
  validRequest key rd p ->
  let fh := formattedHistory (history rd) in
  let msg := textPart p :: editImageParts (inputImage rd) in
  POST key m (Some rd) = (respond (m fh msg), [mkModelCall fh msg]).
Proof.
  intros [Hkey [Hp [Htp Hval]]]. unfold POST, POST_try, invoke.
  rewrite Hkey, Hp, Htp, Hval. simpl negb. cbv iota.
  rewrite (messageParts_valid p _ Hval).
  unfold respond.
  destruct (m (formattedHistory (history rd))
              (textPart p :: editImageParts (inputImage rd))) as [e|response];
    [reflexivity|].
  destruct (decodeResponse response); reflexivity.
Qed.

(** A request that fails a check is answered without any call. *)
Lemma POST_invalid_prompt (key : string) (m : Model) (rd : RequestData) :
  Js.truthy key = true ->
  Js.truthyOpt (prompt rd) = false ->
  POST key m (Some rd) = (failure "Prompt is required" None 400, []).
Proof.
  intros Hkey Hp. unfold POST, POST_try. rewrite Hkey. simpl.
  destruct (prompt rd) as [p|]; [|reflexivity].
  simpl in Hp. now rewrite Hp.
Qed.

Lemma POST_invalid_image (key : string) (m : Model) (rd : RequestData)
    (p : string) (r : NextResponse) :
  Js.truthy key = true ->
  prompt rd = Some p ->
  Js.truthy p = true ->
  validateImage (inputImage rd) = Some r ->
  POST key m (Some rd) = (r, []).
Proof.
  intros Hkey Hp Htp Hval. unfold POST, POST_try.
  now rewrite Hkey, Hp, Htp, Hval.
Qed.

(** The decoder answers with a success envelope that has an image, or
    with one of two failure envelopes of status 500, or it throws. *)
Lemma decodeResponse_cases (response : GenerateContentResponse) :
  (exists img desc, decodeResponse response = inr (successResponse img desc)) \/
  decodeResponse response =
    inr (failure "No image data in Gemini response" None 500) \/
  decodeResponse response =
    inr (failure "No response from Gemini API" None 500) \/
  decodeResponse response = inl (ErrorObject typeErrorMessage).
Proof.
  unfold decodeResponse.
  destruct (candidates response) as [[|c cs]|]; [tauto| |tauto].
  destruct (content c) as [ps|]; [|tauto].
  destruct (imageData (fold_left scanPart ps initialScan)) as [d|]; [|tauto].
  destruct (Js.truthy d); [|tauto].
  left. eexists. eexists. reflexivity.
Qed.

(** The scan finds image data only in an inline-data part. *)
Lemma scan_no_inline (ps : list Part) (st : Scan) :
  (forall w, In w ps -> inlineData w = None) ->
  imageData (fold_left scanPart ps st) = imageData st.
Proof.
  revert st. induction ps as [|w ps IH]; intros st H; [reflexivity|].
  simpl. rewrite IH by (intros w' Hw'; apply H; now right).
  unfold scanPart. rewrite (H w (or_introl eq_refl)).
  destruct (part_text w) as [t|]; [|reflexivity].
  now destruct (Js.truthy t).
Qed.

(** The envelopes of a request whose checks pass. *)
Lemma respond_cases (outcome : Thrown + GenerateContentResponse) :
  (exists img desc, respond outcome = successResponse img desc) \/
  (exists err det,
      respond outcome = failure err det 500 /\ err <> "Prompt is required").
Proof.
  destruct outcome as [e|response]; simpl.
  - right. eexists. eexists. split; [reflexivity|discriminate].
  - destruct (decodeResponse_cases response) as [[img [desc ->]]|[->|[->| ->]]].
    + left. now exists img, desc.
    + right. eexists. eexists. split; [reflexivity|discriminate].
    + right. eexists. eexists. split; [reflexivity|discriminate].
    + right. eexists. eexists. split; [reflexivity|discriminate].
Qed.

(** The early returns of the image validation. *)
Lemma validateImage_cases (img : option string) (r : NextResponse) :
  validateImage img = Some r ->
  exists err, r = failure err None 400 /\ err <> "Prompt is required".
Proof.
  unfold validateImage. destruct img as [url|]; [|discriminate].
  destruct (Js.truthy url); [|discriminate].
  destruct (negb (Js.startsWith url "data:")).
  { intros H. inversion H. eexists. split; [reflexivity|discriminate]. }
  destruct (List.length (Js.split "," url) <? 2)%nat.
  { intros H. inversion H. eexists. split; [reflexivity|discriminate]. }
  destruct (negb (Js.truthy (nth 1 (Js.split "," url) "")) ||
            negb (Js.testBase64 (Js.stripSpace (nth 1 (Js.split "," url) ""))));
    [|discriminate].
  intros H. inversion H. eexists. split; [reflexivity|discriminate].
Qed.

(** Every response of the handler is a success envelope with an image
    and status 200, or a failure envelope with status 400 or 500. *)
Lemma POST_envelope (key : string) (m : Model) (body : option RequestData) :
  (exists img desc, fst (POST key m body) = successResponse img desc) \/
  (exists err det st,
      fst (POST key m body) = failure err det st /\ (st = 400 \/ st = 500)).
Proof.
  destruct (Js.truthy key) eqn:Hkey.
  2:{ right. unfold POST, POST_try. rewrite Hkey. simpl.
      eexists. eexists. eexists. split; [reflexivity|now right]. }
  destruct body as [rd|].
  2:{ right. unfold POST, POST_try. rewrite Hkey. simpl.
      eexists. eexists. eexists. split; [reflexivity|now left]. }
  destruct (Js.truthyOpt (prompt rd)) eqn:Hp.
  2:{ right. rewrite (POST_invalid_prompt key m rd Hkey Hp). simpl.
      eexists. eexists. eexists. split; [reflexivity|now left]. }
  unfold Js.truthyOpt in Hp. destruct (prompt rd) as [p|] eqn:Hprompt;
    [|discriminate].
  destruct (validateImage (inputImage rd)) as [r|] eqn:Hval.
  - right. rewrite (POST_invalid_image key m rd p r Hkey Hprompt Hp Hval).
    destruct (validateImage_cases _ _ Hval) as [err [-> _]]. simpl.
    eexists. eexists. eexists. split; [reflexivity|now left].
  - rewrite (POST_valid key m rd p (conj Hkey (conj Hprompt (conj Hp Hval)))).
    simpl fst.
    destruct (respond_cases
                (m (formattedHistory (history rd))
                   (textPart p :: editImageParts (inputImage rd))))
      as [[img [desc ->]]|[err [det [-> _]]]].
    + left. now exists img, desc.
    + right. eexists. eexists. eexists. split; [reflexivity|now right].
Qed.

(** ** Validation of the request *)

Definition imageReply : GenerateContentResponse :=
  mkResponse (Some [mkCandidate
                      (Some [inlineDataPart "QUJD" "image/png"; textPart "a cat"])]).

Definition blankPromptRequest : RequestData :=
  mkRequestData (Some " ") None None.

(** C3, as stated, fails: the prompt [" "] consists of whitespace only,
    and the handler calls the model with it and answers with the success
    envelope, not with status 400. *)
Lemma whitespace_prompt_accepted :
  Js.allChars Js.isSpace " " = true /\
  POST "key" (stubModel (inr imageReply)) (Some blankPromptRequest) =
    (successResponse "data:image/png;base64,QUJD" (Some "a cat"),
     [mkModelCall [] [textPart " "]]) /\
  status (fst (POST "key" (stubModel (inr imageReply))
                 (Some blankPromptRequest))) <> 400 /\
  snd (POST "key" (stubModel (inr imageReply)) (Some blankPromptRequest)) <> [].
Proof. repeat split; discriminate. Qed.

(** C3, amended: with the API key configured, a request whose prompt is
    absent or the empty string is answered with status 400 and the error
    "Prompt is required", and the model is not called; a request with any
    non-empty prompt is not answered with that error. *)
Theorem empty_prompt_rejected (key : string) (m : Model) (rd : RequestData) :
  Js.truthy key = true ->
  (prompt rd = None \/ prompt rd = Some "" ->
   POST key m (Some rd) = (failure "Prompt is required" None 400, []) /\
   status (fst (POST key m (Some rd))) = 400 /\
   snd (POST key m (Some rd)) = []) /\
  (forall p, prompt rd = Some p -> p <> "" ->
   error (json (fst (POST key m (Some rd)))) <> Some "Prompt is required").
Proof.
  intros Hkey. split.
  - intros Hp.
    assert (E : POST key m (Some rd) = (failure "Prompt is required" None 400, [])).
    { apply POST_invalid_prompt; [exact Hkey|].
      destruct Hp as [-> | ->]; reflexivity. }
    rewrite E. repeat split.
  - intros p Hp Hne. apply truthy_nonempty in Hne.
    destruct (validateImage (inputImage rd)) as [r|] eqn:Hval.
    + rewrite (POST_invalid_image key m rd p r Hkey Hp Hne Hval).
      destruct (validateImage_cases _ _ Hval) as [err [-> Herr]].
      simpl. congruence.
    + rewrite (POST_valid key m rd p (conj Hkey (conj Hp (conj Hne Hval)))).
      simpl fst.
      destruct (respond_cases
                  (m (formattedHistory (history rd))
                     (textPart p :: editImageParts (inputImage rd))))
        as [[img [desc ->]]|[err [det [-> Herr]]]]; simpl;
        [discriminate|congruence].
Qed.

Lemma empty_prompt_rejected_witness :
  POST "key" (stubModel (inr imageReply)) (Some (mkRequestData (Some "") None None))
    = (failure "Prompt is required" None 400, []) /\
  error (json (fst (POST "key" (stubModel (inr imageReply))
                      (Some blankPromptRequest))))
    <> Some "Prompt is required".
Proof.
  split.
  - refine (proj1 (proj1 (empty_prompt_rejected
               "key" (stubModel (inr imageReply))
               (mkRequestData (Some "") None None) eq_refl) _)).
    right. reflexivity.
  - apply (proj2 (empty_prompt_rejected "key" (stubModel (inr imageReply))
                    blankPromptRequest eq_refl) " ").
    + reflexivity.
    + discriminate.
Defined.

(** C4: with the API key configured and a non-empty prompt, a request
    with a non-empty [image] string is checked in this order, each failure
    being answered with status 400 before any call of the model: the
    string does not start with ["data:"] (invalid format); else its split
    on commas has fewer than two segments (malformed data URL); else the
    second segment, whitespace removed, is empty or has a character
    outside letters, digits, [+], [/] and [=] (invalid base64). *)
Theorem image_validation_order (key : string) (m : Model) (rd : RequestData)
    (p url : string) :
  Js.truthy key = true ->
  prompt rd = Some p ->
  p <> "" ->
  inputImage rd = Some url ->
  url <> "" ->
  (Js.startsWith url "data:" = false ->
   POST key m (Some rd) =
     (failure "Invalid image data URL format" None 400, [])) /\
  (Js.startsWith url "data:" = true ->
   List.length (Js.split "," url) < 2 ->
   POST key m (Some rd) = (failure "Malformed image data URL" None 400, [])) /\
  (Js.startsWith url "data:" = true ->
   2 <= List.length (Js.split "," url) ->
   Js.stripSpace (nth 1 (Js.split "," url) "") = "" \/
   (exists c, InStr c (Js.stripSpace (nth 1 (Js.split "," url) "")) /\
              Js.isBase64Char c = false) ->
   POST key m (Some rd) =
     (failure "Image data is empty or not valid base64" None 400, [])).
Proof.
  intros Hkey Hp Hne Himg Hurl.
  apply truthy_nonempty in Hne. apply truthy_nonempty in Hurl.
  repeat apply conj.
  - intros Hd. apply (POST_invalid_image key m rd p _ Hkey Hp Hne).
    rewrite Himg. unfold validateImage. now rewrite Hurl, Hd.
  - intros Hd Hlen. apply (POST_invalid_image key m rd p _ Hkey Hp Hne).
    rewrite Himg. unfold validateImage. rewrite Hurl, Hd. simpl negb.
    cbv iota. now rewrite (proj2 (Nat.ltb_lt _ _) Hlen).
  - intros Hd Hlen Hbad. apply (POST_invalid_image key m rd p _ Hkey Hp Hne).
    rewrite Himg. unfold validateImage. rewrite Hurl, Hd. simpl negb.
    cbv iota. rewrite (proj2 (Nat.ltb_ge _ _) Hlen).
    rewrite (proj2 (testBase64_false _) Hbad). simpl negb.
    now rewrite orb_true_r.
Qed.

Definition imageRequest (url : string) : RequestData :=
  mkRequestData (Some "edit") (Some url) (Some []).

Lemma image_validation_order_witness :
  POST "key" (stubModel (inr imageReply)) (Some (imageRequest "not-a-data-url"))
    = (failure "Invalid image data URL format" None 400, []) /\
  POST "key" (stubModel (inr imageReply)) (Some (imageRequest "data:image/png"))
    = (failure "Malformed image data URL" None 400, []) /\
  POST "key" (stubModel (inr imageReply))
       (Some (imageRequest "data:image/png;base64,QU-JD"))
    = (failure "Image data is empty or not valid base64" None 400, []).
Proof.
  repeat apply conj.
  - refine (proj1 (image_validation_order
               "key" (stubModel (inr imageReply))
               (imageRequest "not-a-data-url") "edit" "not-a-data-url"
               eq_refl eq_refl _ eq_refl _) eq_refl); discriminate.
  - refine (proj1 (proj2 (image_validation_order
               "key" (stubModel (inr imageReply))
               (imageRequest "data:image/png") "edit" "data:image/png"
               eq_refl eq_refl _ eq_refl _)) eq_refl _);
      try discriminate. simpl. lia.
  - refine (proj2 (proj2 (image_validation_order
               "key" (stubModel (inr imageReply))
               (imageRequest "data:image/png;base64,QU-JD") "edit"
               "data:image/png;base64,QU-JD"
               eq_refl eq_refl _ eq_refl _)) eq_refl _ _);
      try discriminate.
    + simpl. lia.
    + right. exists "-"%char. split; [|reflexivity].
      simpl. tauto.
Defined.

(** ** The current-turn message *)

Definition twoCommaUrl : string := "data:image/png;base64,AAAA,BBBB".

(** C7, as stated, fails: the request with the image [twoCommaUrl] passes
    validation, and the data of the inline-data part of its message is
    the segment ["AAAA"], not the text ["AAAA,BBBB"] after the first
    comma. *)
Lemma inline_data_is_second_segment :
  validRequest "key" (imageRequest twoCommaUrl) "edit" /\
  snd (POST "key" (stubModel (inr imageReply)) (Some (imageRequest twoCommaUrl)))
    = [mkModelCall [] [textPart "edit"; inlineDataPart "AAAA" "image/png"]] /\
  Js.afterFirst "," twoCommaUrl = Some "AAAA,BBBB" /\
  "AAAA" <> "AAAA,BBBB".
Proof. repeat split. discriminate. Qed.

(** C7, amended: for a request that passes validation the handler calls
    the model once, with the encoded history and a message whose first
    part is the prompt text; when a non-empty edit image is given, the
    message has exactly one more part, an inline-data part whose data is
    the second segment of the data URL split on commas, that is the text
    after the first comma up to the next comma, and all the text after the
    first comma when the URL has one comma; without an edit image the
    message is the prompt text part alone; and for an empty history the
    encoded history is empty. *)
Theorem current_turn_message (key : string) (m : Model) (rd : RequestData)
    (p : string) :
  validRequest key rd p ->
  exists msg,
    snd (POST key m (Some rd)) =
      [mkModelCall (formattedHistory (history rd)) msg] /\
    hd_error msg = Some (textPart p) /\
    (forall url, inputImage rd = Some url -> url <> "" ->
       exists rest,
         Js.afterFirst "," url = Some rest /\
         msg = [textPart p;
                inlineDataPart (Js.beforeFirst "," rest) (inferMimeType url)] /\
         (Js.countChar "," url = 1 -> Js.beforeFirst "," rest = rest)) /\
    (Js.truthyOpt (inputImage rd) = false -> msg = [textPart p]) /\
    (history rd = Some [] -> formattedHistory (history rd) = []).
Proof.
  intros Hvalid. exists (textPart p :: editImageParts (inputImage rd)).
  rewrite (POST_valid key m rd p Hvalid). simpl snd.
  destruct Hvalid as [_ [_ [_ Hval]]].
  split; [reflexivity|]. split; [reflexivity|]. split; [|split].
  - intros url Himg Hurl. rewrite Himg in Hval |- *.
    apply truthy_nonempty in Hurl.
    unfold validateImage in Hval. rewrite Hurl in Hval.
    destruct (negb (Js.startsWith url "data:")); [discriminate|].
    destruct (List.length (Js.split "," url) <? 2)%nat eqn:Hlen;
      [discriminate|].
    apply Nat.ltb_ge in Hlen. rewrite split_length in Hlen.
    destruct (Js.afterFirst "," url) as [rest|] eqn:Hafter.
    + exists rest. split; [reflexivity|]. split.
      * unfold editImageParts. rewrite Hurl.
        now rewrite (split_second _ _ _ Hafter).
      * intros Hone. rewrite (afterFirst_count _ _ _ Hafter) in Hone.
        apply beforeFirst_no_sep. lia.
    + apply afterFirst_none_count in Hafter. lia.
  - intros Himg. unfold editImageParts. destruct (inputImage rd) as [url|];
      [|reflexivity].
    simpl in Himg. now rewrite Himg.
  - intros ->. reflexivity.
Qed.

Lemma current_turn_message_witness :
  exists msg,
    snd (POST "key" (stubModel (inr imageReply))
           (Some (imageRequest "data:image/png;base64,AAAA"))) =
      [mkModelCall [] msg] /\
    hd_error msg = Some (textPart "edit").
Proof.
  destruct (current_turn_message "key" (stubModel (inr imageReply))
              (imageRequest "data:image/png;base64,AAAA") "edit")
    as [msg [Hcall [Hhd _]]].
  - repeat split.
  - exists msg. split; [exact Hcall|exact Hhd].
Defined.

(** ** Decoding of the reply and failures *)

(** The parts the decoder scans: those of the first candidate. *)
Definition scannedParts (response : GenerateContentResponse) : list Part :=
  match candidates response with
  | Some (c :: _) =>
      match content c with
      | Some ps => ps
      | None => []
      end
  | _ => []
  end.

Lemma decode_no_inline (response : GenerateContentResponse) :
  (forall w, In w (scannedParts response) -> inlineData w = None) ->
  decodeResponse response =
    inr (failure "No image data in Gemini response" None 500) \/
  decodeResponse response = inr (failure "No response from Gemini API" None 500) \/
  decodeResponse response = inl (ErrorObject typeErrorMessage).
Proof.
  unfold scannedParts, decodeResponse.
  destruct (candidates response) as [[|c cs]|]; [tauto| |tauto].
  destruct (content c) as [ps|]; [|tauto].
  intros H. rewrite (scan_no_inline ps initialScan H). simpl. tauto.
Qed.

Definition textOnlyReply : GenerateContentResponse :=
  mkResponse (Some [mkCandidate (Some [textPart "I cannot draw that"])]).

(** C2: a response with [success: true] always has status 200 and an
    [image] field; and when the request passes validation and the reply
    of the model has no inline-data part among the parts the decoder
    scans (the reply is text only, or has no candidate), the handler
    answers with status 500, [success: false], an [error] and no [image]
    field. *)
Theorem no_success_without_image (key : string) (m : Model)
    (body : option RequestData) :
  (success (json (fst (POST key m body))) = true ->
   status (fst (POST key m body)) = 200 /\
   exists img, res_image (json (fst (POST key m body))) = Some img) /\
  (forall rd p response,
     body = Some rd ->
     validRequest key rd p ->
     m (formattedHistory (history rd)) (textPart p :: editImageParts (inputImage rd))
       = inr response ->
     (forall w, In w (scannedParts response) -> inlineData w = None) ->
     status (fst (POST key m body)) = 500 /\
     success (json (fst (POST key m body))) = false /\
     (exists err, error (json (fst (POST key m body))) = Some err) /\
     res_image (json (fst (POST key m body))) = None).
Proof.
  split.
  - destruct (POST_envelope key m body)
      as [[img [desc ->]]|[err [det [st [-> _]]]]]; simpl.
    + intros _. split; [reflexivity|now exists img].
    + discriminate.
  - intros rd p response -> Hvalid Hm Hno.
    rewrite (POST_valid key m rd p Hvalid). simpl fst. rewrite Hm.
    unfold respond.
    destruct (decode_no_inline response Hno) as [->|[->| ->]]; simpl;
      repeat split; eexists; reflexivity.
Qed.

Lemma no_success_without_image_witness :
  status (fst (POST "key" (stubModel (inr textOnlyReply))
                 (Some (mkRequestData (Some "a cat") None None)))) = 500 /\
  (success (json (fst (POST "key" (stubModel (inr imageReply))
                         (Some (mkRequestData (Some "a cat") None None))))) = true ->
   status (fst (POST "key" (stubModel (inr imageReply))
                  (Some (mkRequestData (Some "a cat") None None)))) = 200).
Proof.
  split.
  - apply (proj2 (no_success_without_image "key" (stubModel (inr textOnlyReply))
                    (Some (mkRequestData (Some "a cat") None None)))
             (mkRequestData (Some "a cat") None None) "a cat" textOnlyReply).
    + reflexivity.
    + repeat split.
    + reflexivity.
    + intros w [<-|[]]. reflexivity.
  - intros H.
    apply (proj1 (no_success_without_image "key" (stubModel (inr imageReply))
                    (Some (mkRequestData (Some "a cat") None None))) H).
Defined.

Definition catRequest : RequestData :=
  mkRequestData (Some "a cat") None None.

(** C8, as stated, fails: when the call of the model throws a value that
    is not an [Error] (here the string ["quota exceeded"]), the envelope of
    the inner catch carries the fixed text of line 268 in [details], and
    the thrown value is not in it. *)
Lemma non_error_failure_message_lost :
  POST "key" (stubModel (inl (OtherValue "quota exceeded"))) (Some catRequest) =
    (failure "Gemini API error" (Some "Unknown error in AI processing") 500,
     [mkModelCall [] [textPart "a cat"]]) /\
  details (json (fst (POST "key" (stubModel (inl (OtherValue "quota exceeded")))
                        (Some catRequest)))) <> Some "quota exceeded" /\
  Js.includes "Unknown error in AI processing" "quota exceeded" = false.
Proof. repeat split. discriminate. Qed.

(** C8, amended: when the call of the model throws, the handler answers
    with status 500 and the envelope [{ success: false, error: "Gemini API
    error", details }], after that one call; [details] is the message of
    the thrown value when it is an [Error], and the fixed text "Unknown
    error in AI processing" when it is not; a fault of the body of the
    handler is answered with the 500 envelope of the outer catch, whose
    [details] is the message of the [Error] or the string conversion of
    any other value; and every response of the handler is a success
    envelope or a failure envelope with status 400 or 500, whatever the
    key, the model and the request are. *)
Theorem upstream_failure_caught (key : string) (m : Model)
    (body : option RequestData) :
  (forall rd p e,
     body = Some rd ->
     validRequest key rd p ->
     m (formattedHistory (history rd)) (textPart p :: editImageParts (inputImage rd))
       = inl e ->
     POST key m body =
       (failure "Gemini API error"
          (Some match e with
                | ErrorObject msg => msg
                | OtherValue _ => "Unknown error in AI processing"
                end) 500,
        [mkModelCall (formattedHistory (history rd))
                     (textPart p :: editImageParts (inputImage rd))]) /\
     (forall msg, e = ErrorObject msg ->
        details (json (fst (POST key m body))) = Some msg) /\
     (forall v, e = OtherValue v ->
        details (json (fst (POST key m body))) =
          Some "Unknown error in AI processing")) /\
  (forall e calls,
     POST_try key m body = (inl e, calls) ->
     POST key m body =
       (failure "Failed to generate image"
          (Some match e with
                | ErrorObject msg => msg
                | OtherValue v => v
                end) 500,
        calls)) /\
  ((exists img desc, fst (POST key m body) = successResponse img desc) \/
   (exists err det st,
       fst (POST key m body) = failure err det st /\ (st = 400 \/ st = 500))).
Proof.
  split; [|split].
  - intros rd p e -> Hvalid Hm.
    rewrite (POST_valid key m rd p Hvalid). simpl fst. rewrite Hm.
    destruct e as [msg|v]; simpl.
    + split; [reflexivity|]. split; [intros msg' H; now inversion H|].
      intros v H. discriminate H.
    + split; [reflexivity|]. split; [intros msg H; discriminate H|].
      intros v' _. reflexivity.
  - intros e calls H. unfold POST. rewrite H. now destruct e.
  - apply POST_envelope.
Qed.

Lemma upstream_failure_caught_witness :
  POST "key" (stubModel (inl (ErrorObject "fetch failed"))) (Some catRequest) =
    (failure "Gemini API error" (Some "fetch failed") 500,
     [mkModelCall [] [textPart "a cat"]]) /\
  details (json (fst (POST "key" (stubModel (inl (OtherValue "quota exceeded")))
                        (Some catRequest)))) =
    Some "Unknown error in AI processing" /\
  POST "key" (stubModel (inr (mkResponse (Some [mkCandidate None]))))
       (Some catRequest) =
    (failure "Failed to generate image" (Some typeErrorMessage) 500,
     [mkModelCall [] [textPart "a cat"]]).
Proof.
  split; [|split].
  - refine (proj1 (proj1 (upstream_failure_caught
                            "key" (stubModel (inl (ErrorObject "fetch failed")))
                            (Some catRequest))
                     catRequest "a cat" (ErrorObject "fetch failed")
                     eq_refl _ eq_refl)).
    repeat split.
  - refine (proj2 (proj2 (proj1 (upstream_failure_caught
                            "key"
                            (stubModel (inl (OtherValue "quota exceeded")))
                            (Some catRequest))
                     catRequest "a cat" (OtherValue "quota exceeded")
                     eq_refl _ eq_refl)) "quota exceeded" eq_refl).
    repeat split.
  - refine (proj1 (proj2 (upstream_failure_caught
                            "key"
                            (stubModel (inr (mkResponse (Some [mkCandidate None]))))
                            (Some catRequest)))
              (ErrorObject typeErrorMessage)
              [mkModelCall [] [textPart "a cat"]] eq_refl).
Defined.


(** * Further properties of the handler *)

(** ** The five ways through the handler *)

(** Every run of the handler ends in one of five ways: the key is
    missing; the body did not parse; the prompt is missing or empty; the
    image was rejected; or all checks passed and the model was called
    once. *)
Lemma POST_cases (key : string) (m : Model) (body : option RequestData) :
  (Js.truthy key = false /\
   POST key m body = (failure "GEMINI_API_KEY is not configured" None 500, [])) \/
  (Js.truthy key = true /\ body = None /\
   POST key m body = (failure "Invalid JSON in request body" None 400, [])) \/
  (Js.truthy key = true /\
   exists rd, body = Some rd /\ Js.truthyOpt (prompt rd) = false /\
     POST key m body = (failure "Prompt is required" None 400, [])) \/
  (Js.truthy key = true /\
   exists rd p r, body = Some rd /\ prompt rd = Some p /\ Js.truthy p = true /\
     validateImage (inputImage rd) = Some r /\ POST key m body = (r, [])) \/
  (exists rd p, body = Some rd /\ validRequest key rd p /\
     POST key m body =
       (respond (m (formattedHistory (history rd))
                   (textPart p :: editImageParts (inputImage rd))),
        [mkModelCall (formattedHistory (history rd))
                     (textPart p :: editImageParts (inputImage rd))])).
Proof.
  destruct (Js.truthy key) eqn:Hkey.
  2:{ left. split; [reflexivity|]. unfold POST, POST_try. now rewrite Hkey. }
  right. destruct body as [rd|].
  2:{ left. repeat split. unfold POST, POST_try. now rewrite Hkey. }
  right. destruct (Js.truthyOpt (prompt rd)) eqn:Hp.
  2:{ left. split; [reflexivity|]. exists rd. repeat split; [exact Hp|].
      now apply POST_invalid_prompt. }
  right. unfold Js.truthyOpt in Hp.
  destruct (prompt rd) as [p|] eqn:Hprompt; [|discriminate].
  destruct (validateImage (inputImage rd)) as [r|] eqn:Hval.
  - left. split; [reflexivity|]. exists rd, p, r. repeat split; try assumption.
    now apply (POST_invalid_image key m rd p r).
  - right. exists rd, p.
    assert (Hvalid : validRequest key rd p) by (repeat split; assumption).
    split; [reflexivity|]. split; [exact Hvalid|].
    exact (POST_valid key m rd p Hvalid).
Qed.

(** The three envelopes of the image validation. *)
Lemma validateImage_errors (img : option string) (r : NextResponse) :
  validateImage img = Some r ->
  r = failure "Invalid image data URL format" None 400 \/
  r = failure "Malformed image data URL" None 400 \/
  r = failure "Image data is empty or not valid base64" None 400.
Proof.
  unfold validateImage. destruct img as [url|]; [|discriminate].
  destruct (Js.truthy url); [|discriminate].
  destruct (negb (Js.startsWith url "data:")).
  { intros H. inversion H. tauto. }
  destruct (List.length (Js.split "," url) <? 2)%nat.
  { intros H. inversion H. tauto. }
  destruct (negb (Js.truthy (nth 1 (Js.split "," url) "")) ||
            negb (Js.testBase64 (Js.stripSpace (nth 1 (Js.split "," url) ""))));
    [|discriminate].
  intros H. inversion H. tauto.
Qed.

(** X1: the handler calls the model at most once, and only after every
    check has passed: whenever a call is made, the key is configured, the
    body parsed, the prompt is non-empty and the image passed validation,
    and the call is the one with the encoded history and the message of
    the current turn; a request that is rejected costs no call. *)
Theorem model_called_only_if_valid (key : string) (m : Model)
    (body : option RequestData) :
  List.length (snd (POST key m body)) <= 1 /\
  (snd (POST key m body) <> [] ->
   exists rd p,
     body = Some rd /\ validRequest key rd p /\
     snd (POST key m body) =
       [mkModelCall (formattedHistory (history rd))
                    (textPart p :: editImageParts (inputImage rd))]).
Proof.
  destruct (POST_cases key m body)
    as [[Hk E]|[[Hk [Hb E]]|[[Hk [rd [Hb [Hp E]]]]|
        [[Hk [rd [p [r [Hb [Hp [Htp [Hval E]]]]]]]]|[rd [p [Hb [Hvalid E]]]]]]]];
    rewrite E; simpl; try (split; [lia|congruence]).
  split; [lia|]. intros _. exists rd, p. repeat split; try assumption.
  - apply Hvalid.
  - apply Hvalid.
  - apply Hvalid.
  - apply Hvalid.
Qed.

Lemma model_called_only_if_valid_witness :
  exists rd p,
    Some catRequest = Some rd /\ validRequest "key" rd p /\
    snd (POST "key" (stubModel (inr imageReply)) (Some catRequest)) =
      [mkModelCall (formattedHistory (history rd))
                   (textPart p :: editImageParts (inputImage rd))].
Proof.
  refine (proj2 (model_called_only_if_valid
                   "key" (stubModel (inr imageReply)) (Some catRequest)) _).
  discriminate.
Defined.


(** X2: a response with status 400 is given only with the key
    configured and without any call of the model; the response is the 500
    configuration failure exactly when no key is configured, whatever the
    request is; and a response that follows a call of the model has
    status 200 or 500. *)
Theorem client_error_means_no_call (key : string) (m : Model)
    (body : option RequestData) :
  (status (fst (POST key m body)) = 400 ->
   Js.truthy key = true /\ snd (POST key m body) = []) /\
  (Js.truthy key = false <->
   POST key m body = (failure "GEMINI_API_KEY is not configured" None 500, [])) /\
  (snd (POST key m body) <> [] ->
   status (fst (POST key m body)) = 200 \/ status (fst (POST key m body)) = 500).
Proof.
  destruct (POST_cases key m body)
    as [[Hk E]|[[Hk [Hb E]]|[[Hk [rd [Hb [Hp E]]]]|
        [[Hk [rd [p [r [Hb [Hp [Htp [Hval E]]]]]]]]|[rd [p [Hb [Hvalid E]]]]]]]];
    rewrite E; simpl.
  - rewrite Hk. repeat split; try discriminate; tauto.
  - rewrite Hk. repeat split; try discriminate; tauto.
  - rewrite Hk. repeat split; try discriminate; tauto.
  - rewrite Hk.
    destruct (validateImage_errors _ _ Hval) as [->|[->| ->]]; simpl;
      repeat split; try discriminate; tauto.
  - destruct Hvalid as [Hk _]. rewrite Hk.
    destruct (respond_cases
                (m (formattedHistory (history rd))
                   (textPart p :: editImageParts (inputImage rd))))
      as [[img [desc ->]]|[err [det [-> _]]]]; simpl;
      repeat split; try discriminate; tauto.
Qed.

Lemma client_error_means_no_call_witness :
  snd (POST "key" (stubModel (inr imageReply))
         (Some (imageRequest "not-a-data-url"))) = [] /\
  (status (fst (POST "key" (stubModel (inr textOnlyReply))
                  (Some catRequest))) = 200 \/
   status (fst (POST "key" (stubModel (inr textOnlyReply))
                  (Some catRequest))) = 500).
Proof.
  split.
  - refine (proj2 (proj1 (client_error_means_no_call
                            "key" (stubModel (inr imageReply))
                            (Some (imageRequest "not-a-data-url"))) eq_refl)).
  - refine (proj2 (proj2 (client_error_means_no_call
                            "key" (stubModel (inr textOnlyReply))
                            (Some catRequest))) _).
    discriminate.
Defined.


(** ** Accepted images and what is sent for them *)

Lemma beforeFirst_count (sep : ascii) (s : string) :
  Js.countChar sep (Js.beforeFirst sep s) = 0.
Proof.
  induction s as [|c s IH]; simpl; [reflexivity|].
  destruct (Ascii.eqb c sep) eqn:E; simpl; [reflexivity|].
  now rewrite E.
Qed.

Lemma testBase64_true (s : string) :
  Js.testBase64 s = true <-> s <> "" /\ Js.allChars Js.isBase64Char s = true.
Proof.
  unfold Js.testBase64. destruct s as [|c s].
  - split; [discriminate|intros [H _]; congruence].
  - split; [intros H; split; [discriminate|exact H]|tauto].
Qed.

Lemma stripSpace_nonempty (s : string) : Js.stripSpace s <> "" -> s <> "".
Proof. intros H ->. now apply H. Qed.

(** The class of the validation is the 65 characters of the base64
    alphabet with its padding. *)
Lemma isBase64Char_alphabet (c : ascii) :
  Js.isBase64Char c = true <->
  InStr c "ABCDEFGHIJKLMNOPQRSTUVWXYZabcdefghijklmnopqrstuvwxyz0123456789+/=".
Proof.
  destruct c as [[] [] [] [] [] [] [] []]; vm_compute;
    split; try discriminate; try tauto; intros H;
    repeat (destruct H as [H|H]; [try discriminate H; try reflexivity|]);
    try reflexivity; try contradiction.
Qed.

(** What an accepted, non-empty image string looks like. *)
Lemma validateImage_payload (url : string) :
  url <> "" ->
  validateImage (Some url) = None ->
  Js.startsWith url "data:" = true /\
  exists rest,
    Js.afterFirst "," url = Some rest /\
    Js.testBase64 (Js.stripSpace (Js.beforeFirst "," rest)) = true.
Proof.
  intros Hurl. apply truthy_nonempty in Hurl.
  unfold validateImage. rewrite Hurl.
  destruct (Js.startsWith url "data:"); simpl; [|discriminate].
  destruct (List.length (Js.split "," url) <? 2)%nat eqn:Hlen; [discriminate|].
  apply Nat.ltb_ge in Hlen. rewrite split_length in Hlen.
  destruct (Js.afterFirst "," url) as [rest|] eqn:Hafter.
  - rewrite (split_second _ _ _ Hafter).
    destruct (Js.testBase64 (Js.stripSpace (Js.beforeFirst "," rest))) eqn:Ht.
    + intros _. split; [reflexivity|]. exists rest. now split.
    + rewrite orb_true_r. discriminate.
  - apply afterFirst_none_count in Hafter. lia.
Qed.

(** X3: the image check lets a string through exactly when it is empty
    (no image), or it starts with ["data:"], has a comma, and the text
    between its first comma and the next one, whitespace removed, is a
    non-empty sequence of characters of the base64 alphabet. *)
Theorem validateImage_accepts (url : string) :
  validateImage (Some url) = None <->
  url = "" \/
  (Js.startsWith url "data:" = true /\
   exists rest,
     Js.afterFirst "," url = Some rest /\
     Js.stripSpace (Js.beforeFirst "," rest) <> "" /\
     Js.allChars Js.isBase64Char (Js.stripSpace (Js.beforeFirst "," rest))
       = true).
Proof.
  split.
  - intros Hval. destruct (String.eqb_spec url "") as [->|Hne]; [now left|].
    right. destruct (validateImage_payload url Hne Hval)
      as [Hd [rest [Hafter Ht]]].
    apply testBase64_true in Ht. split; [exact Hd|]. now exists rest.
  - intros [->|[Hd [rest [Hafter [Hne Hall]]]]]; [reflexivity|].
    unfold validateImage.
    destruct (Js.truthy url); [|reflexivity].
    rewrite Hd. simpl.
    assert (Hlen : (List.length (Js.split "," url) <? 2)%nat = false).
    { apply Nat.ltb_ge. rewrite split_length.
      rewrite (afterFirst_count _ _ _ Hafter). lia. }
    rewrite Hlen, (split_second _ _ _ Hafter).
    rewrite (proj2 (testBase64_true _) (conj Hne Hall)).
    now rewrite (proj2 (truthy_nonempty _) (stripSpace_nonempty _ Hne)).
Qed.

Lemma validateImage_accepts_witness :
  validateImage (Some "data:image/png;base64,QU JD,rest") = None.
Proof.
  apply (proj2 (validateImage_accepts "data:image/png;base64,QU JD,rest")).
  right. split; [reflexivity|]. exists "QU JD,rest".
  repeat split. discriminate.
Defined.


Lemma inferMimeType_two (url : string) :
  inferMimeType url = "image/png" \/ inferMimeType url = "image/jpeg".
Proof. unfold inferMimeType. destruct (Js.includes url "image/png"); tauto. Qed.

(** The inline-data part of the message of a validated image. *)
Lemma editImageParts_valid (img : option string) (w : Part) (blob : InlineData) :
  validateImage img = None ->
  In w (editImageParts img) ->
  inlineData w = Some blob ->
  Js.testBase64 (Js.stripSpace (data blob)) = true /\
  Js.countChar "," (data blob) = 0 /\
  (mimeType blob = "image/png" \/ mimeType blob = "image/jpeg").
Proof.
  destruct img as [url|]; [|simpl; intros _ []].
  unfold editImageParts. intros Hval.
  destruct (Js.truthy url) eqn:Hurl; [|simpl; intros []].
  apply truthy_nonempty in Hurl.
  destruct (validateImage_payload url Hurl Hval) as [_ [rest [Hafter Ht]]].
  rewrite (split_second _ _ _ Hafter).
  intros [<-|[]] Hb. simpl in Hb. inversion Hb. subst blob. simpl.
  split; [exact Ht|].
  split; [apply beforeFirst_count|apply inferMimeType_two].
Qed.

(** X4: in every call the handler makes, an inline-data part of the
    message carries data that, whitespace removed, is a non-empty
    sequence of base64 characters, has no comma, and a mime type that is
    [image/png] or [image/jpeg]; the data is sent as received, its
    whitespace is removed for the check only. *)
Theorem sent_image_is_validated (key : string) (m : Model)
    (body : option RequestData) (c : ModelCall) (w : Part) (blob : InlineData) :
  In c (snd (POST key m body)) ->
  In w (call_message c) ->
  inlineData w = Some blob ->
  Js.testBase64 (Js.stripSpace (data blob)) = true /\
  Js.countChar "," (data blob) = 0 /\
  (mimeType blob = "image/png" \/ mimeType blob = "image/jpeg").
Proof.
  destruct (POST_cases key m body)
    as [[Hk E]|[[Hk [Hb E]]|[[Hk [rd [Hb [Hp E]]]]|
        [[Hk [rd [p [r [Hb [Hp [Htp [Hval E]]]]]]]]|[rd [p [Hb [Hvalid E]]]]]]]];
    rewrite E; simpl; try (intros H0; exact (False_ind _ H0)).
  intros [<-|[]]. simpl. intros [<-|Hw] Hb'; [discriminate|].
  destruct Hvalid as [_ [_ [_ Hval]]].
  exact (editImageParts_valid _ w blob Hval Hw Hb').
Qed.

Definition spacedImageRequest : RequestData :=
  imageRequest "data:image/png;base64,QU JD".

Lemma sent_image_is_validated_witness :
  snd (POST "key" (stubModel (inr imageReply)) (Some spacedImageRequest)) =
    [mkModelCall [] [textPart "edit"; inlineDataPart "QU JD" "image/png"]] /\
  Js.testBase64 (Js.stripSpace "QU JD") = true.
Proof.
  split; [reflexivity|].
  refine (proj1 (sent_image_is_validated
                   "key" (stubModel (inr imageReply)) (Some spacedImageRequest)
                   (mkModelCall [] [textPart "edit";
                                    inlineDataPart "QU JD" "image/png"])
                   (inlineDataPart "QU JD" "image/png")
                   (mkInlineData "QU JD" "image/png") _ _ _)).
  - left. reflexivity.
  - right. left. reflexivity.
  - reflexivity.
Defined.

(** X5: an empty [image] string is no image: the handler answers a
    request with [image: ""] exactly as the same request without the
    field ([""] is what the upload widget reports when the image is
    removed), with the same call of the model. *)
Theorem empty_image_is_no_image (key : string) (m : Model)
    (p : option string) (h : option (list HistoryItem)) :
  POST key m (Some (mkRequestData p (Some "") h)) =
  POST key m (Some (mkRequestData p None h)).
Proof.
  unfold POST, POST_try. destruct (Js.truthy key); [|reflexivity]. simpl.
  destruct p as [p|]; [|reflexivity].
  destruct (Js.truthy p); reflexivity.
Qed.

(** ** The decoder: the last part of each kind wins *)

(** A part the scan takes as text: no inline data and a non-empty text. *)
Definition isTextOf (w : Part) (t : string) : Prop :=
  inlineData w = None /\ part_text w = Some t /\ t <> "".

Definition carriesText (w : Part) : Prop := exists t, isTextOf w t.

Lemma scan_inline_last (before after : list Part) (w : Part)
    (blob : InlineData) (st : Scan) :
  inlineData w = Some blob ->
  (forall w', In w' after -> inlineData w' = None) ->
  imageData (fold_left scanPart (before ++ w :: after) st) = Some (data blob) /\
  scan_mimeType (fold_left scanPart (before ++ w :: after) st) =
    (if Js.truthy (mimeType blob) then mimeType blob else "image/png").
Proof.
  intros Hw Hafter. rewrite fold_left_app. simpl.
  set (st1 := scanPart (fold_left scanPart before st) w).
  assert (H1 : imageData st1 = Some (data blob) /\
               scan_mimeType st1 =
                 (if Js.truthy (mimeType blob) then mimeType blob
                  else "image/png")).
  { unfold st1, scanPart. rewrite Hw. simpl. split; reflexivity. }
  clearbody st1. revert st1 H1.
  induction after as [|a after IH]; intros st1 H1; [exact H1|].
  simpl. apply IH; [intros w' Hw'; apply Hafter; now right|].
  unfold scanPart. rewrite (Hafter a (or_introl eq_refl)).
  destruct (part_text a) as [t|]; [|exact H1].
  destruct (Js.truthy t); [|exact H1]. exact H1.
Qed.

Lemma scan_no_text (ps : list Part) (st : Scan) :
  (forall w, In w ps -> ~ carriesText w) ->
  textResponse (fold_left scanPart ps st) = textResponse st.
Proof.
  revert st. induction ps as [|w ps IH]; intros st H; [reflexivity|].
  simpl. rewrite IH by (intros w' Hw'; apply H; now right).
  unfold scanPart. destruct (inlineData w) eqn:Hi; [reflexivity|].
  destruct (part_text w) as [t|] eqn:Ht; [|reflexivity].
  destruct (Js.truthy t) eqn:Htt; [|reflexivity].
  exfalso. apply (H w (or_introl eq_refl)). exists t.
  repeat split; try assumption. now apply truthy_nonempty.
Qed.

Lemma scan_text_last (before after : list Part) (w : Part) (t : string)
    (st : Scan) :
  isTextOf w t ->
  (forall w', In w' after -> ~ carriesText w') ->
  textResponse (fold_left scanPart (before ++ w :: after) st) = Some t.
Proof.
  intros [Hi [Ht Hne]] Hafter. rewrite fold_left_app. simpl.
  rewrite (scan_no_text after _ Hafter).
  unfold scanPart. rewrite Hi, Ht.
  now rewrite (proj2 (truthy_nonempty t) Hne).
Qed.

(** X6: the decoder reads the first candidate only, and the last
    inline-data part of its parts decides the image: with non-empty data
    the reply decodes to a success envelope whose image is
    [data:<mime>;base64,<data>], where the mime type is the one of that
    part, or [image/png] when that is empty; with empty data the reply
    decodes to the no-image failure, even if an earlier part had an
    image. *)
Theorem decoder_last_image_wins (before after : list Part) (w : Part)
    (blob : InlineData) (cs : list Candidate) :
  inlineData w = Some blob ->
  (forall w', In w' after -> inlineData w' = None) ->
  let response :=
    mkResponse (Some (mkCandidate (Some (before ++ w :: after)) :: cs)) in
  let mime :=
    if Js.truthy (mimeType blob) then mimeType blob else "image/png" in
  (data blob <> "" ->
   exists desc,
     decodeResponse response =
       inr (successResponse ("data:" ++ mime ++ ";base64," ++ data blob)%string
                            desc)) /\
  (data blob = "" ->
   decodeResponse response =
     inr (failure "No image data in Gemini response" None 500)).
Proof.
  intros Hw Hafter response mime. unfold response, decodeResponse. simpl.
  destruct (scan_inline_last before after w blob initialScan Hw Hafter)
    as [Hd Hm].
  rewrite Hd, Hm. fold mime. split.
  - intros Hne. rewrite (proj2 (truthy_nonempty _) Hne).
    eexists. reflexivity.
  - intros ->. reflexivity.
Qed.

Definition twoImageParts : list Part :=
  [inlineDataPart "QUJD" "image/jpeg"; textPart "a cat"; inlineDataPart "REVG" ""].

Lemma decoder_last_image_wins_witness :
  (exists desc,
     decodeResponse (mkResponse (Some [mkCandidate (Some twoImageParts)])) =
       inr (successResponse "data:image/png;base64,REVG" desc)) /\
  decodeResponse
    (mkResponse (Some [mkCandidate
                         (Some [inlineDataPart "QUJD" "image/png";
                                inlineDataPart "" "image/png"])])) =
    inr (failure "No image data in Gemini response" None 500).
Proof.
  split.
  - refine (proj1 (decoder_last_image_wins
                     [inlineDataPart "QUJD" "image/jpeg"; textPart "a cat"] []
                     (inlineDataPart "REVG" "") (mkInlineData "REVG" "") []
                     eq_refl _) _).
    + intros w' [].
    + discriminate.
  - refine (proj2 (decoder_last_image_wins
                     [inlineDataPart "QUJD" "image/png"] []
                     (inlineDataPart "" "image/png") (mkInlineData "" "image/png")
                     [] eq_refl _) eq_refl).
    intros w' [].
Defined.

(** X7: when a reply decodes to a success envelope, its description is
    the text of the last part that has no inline data and a non-empty
    text, and [null] when the scanned parts have no such part; a text
    carried by an inline-data part is not read. *)
Theorem decoder_last_text_wins (response : GenerateContentResponse)
    (r : NextResponse) :
  decodeResponse response = inr r ->
  success (json r) = true ->
  (forall before after w t,
     scannedParts response = before ++ w :: after ->
     isTextOf w t ->
     (forall w', In w' after -> ~ carriesText w') ->
     description (json r) = Some (Some t)) /\
  ((forall w, In w (scannedParts response) -> ~ carriesText w) ->
   description (json r) = Some None).
Proof.
  unfold decodeResponse, scannedParts.
  destruct (candidates response) as [[|c cs]|];
    try (intros H; inversion H; subst r; discriminate).
  destruct (content c) as [ps|]; [|discriminate].
  destruct (imageData (fold_left scanPart ps initialScan)) as [d|];
    [|intros H; inversion H; subst r; discriminate].
  destruct (Js.truthy d); [|intros H; inversion H; subst r; discriminate].
  intros H _. inversion H. subst r. simpl. split.
  - intros before after w t -> Ht Hafter.
    now rewrite (scan_text_last before after w t initialScan Ht Hafter).
  - intros Hno. now rewrite (scan_no_text ps initialScan Hno).
Qed.

Lemma decoder_last_text_wins_witness :
  description
    (json (successResponse "data:image/png;base64,REVG" (Some "a cat"))) =
    Some (Some "a cat").
Proof.
  refine (proj1 (decoder_last_text_wins
                   (mkResponse (Some [mkCandidate (Some twoImageParts)]))
                   (successResponse "data:image/png;base64,REVG" (Some "a cat"))
                   eq_refl eq_refl)
            [inlineDataPart "QUJD" "image/jpeg"] [inlineDataPart "REVG" ""]
            (textPart "a cat") "a cat" eq_refl _ _).
  - repeat split. discriminate.
  - intros w' [<-|[]] [t [Hi _]]. discriminate.
Defined.

(** ** The image of a success envelope *)

Lemma countChar_app (c : ascii) (a b : string) :
  Js.countChar c (a ++ b) = Js.countChar c a + Js.countChar c b.
Proof.
  induction a as [|d a IH]; simpl; [reflexivity|]. rewrite IH. lia.
Qed.

Lemma decode_image_form (response : GenerateContentResponse)
    (r : NextResponse) (img : string) :
  decodeResponse response = inr r ->
  res_image (json r) = Some img ->
  exists mime d, img = ("data:" ++ mime ++ ";base64," ++ d)%string /\ d <> "".
Proof.
  unfold decodeResponse.
  destruct (candidates response) as [[|c cs]|];
    try (intros H; inversion H; subst r; discriminate).
  destruct (content c) as [ps|]; [|discriminate].
  destruct (imageData (fold_left scanPart ps initialScan)) as [d|];
    [|intros H; inversion H; subst r; discriminate].
  destruct (Js.truthy d) eqn:Hd; [|intros H; inversion H; subst r; discriminate].
  intros H. inversion H. subst r. simpl. intros Hi. inversion Hi.
  eexists. exists d. split; [reflexivity|now apply truthy_nonempty].
Qed.

(** X8: the image of every response that has one is a data URL that the
    handler itself accepts up to the base64 check: it starts with
    ["data:"] and has a comma, so when it is sent back as the image to
    edit, the image validation lets it through or answers with the base64
    failure, never with the format or malformed-URL failure. *)
Theorem result_image_is_data_url (key : string) (m : Model)
    (body : option RequestData) (img : string) :
  res_image (json (fst (POST key m body))) = Some img ->
  Js.startsWith img "data:" = true /\
  1 <= Js.countChar "," img /\
  (validateImage (Some img) = None \/
   validateImage (Some img) =
     Some (failure "Image data is empty or not valid base64" None 400)).
Proof.
  intros Himg.
  assert (Hform : exists mime d,
             img = ("data:" ++ mime ++ ";base64," ++ d)%string /\ d <> "").
  { destruct (POST_cases key m body)
      as [[Hk E]|[[Hk [Hb E]]|[[Hk [rd [Hb [Hp E]]]]|
          [[Hk [rd [p [r [Hb [Hp [Htp [Hval E]]]]]]]]|[rd [p [Hb [Hvalid E]]]]]]]];
      rewrite E in Himg; simpl in Himg; try discriminate.
    - destruct (validateImage_errors _ _ Hval) as [->|[->| ->]]; discriminate.
    - unfold respond in Himg.
      destruct (m (formattedHistory (history rd))
                  (textPart p :: editImageParts (inputImage rd)))
        as [e|response]; [discriminate|].
      destruct (decodeResponse response) as [e|r] eqn:Hdec; [discriminate|].
      exact (decode_image_form response r img Hdec Himg). }
  destruct Hform as [mime [d [-> Hd]]].
  assert (Hstart : Js.startsWith ("data:" ++ mime ++ ";base64," ++ d) "data:"
                   = true).
  { apply prefix_app. now exists (mime ++ ";base64," ++ d)%string. }
  assert (Hcount : 1 <= Js.countChar "," ("data:" ++ mime ++ ";base64," ++ d)).
  { change ("data:" ++ mime ++ ";base64," ++ d)%string
      with ("data:" ++ (mime ++ (";base64," ++ d)))%string.
    rewrite !countChar_app. simpl. lia. }
  assert (Hne : Js.truthy ("data:" ++ mime ++ ";base64," ++ d) = true)
    by (apply truthy_nonempty; discriminate).
  remember ("data:" ++ mime ++ ";base64," ++ d)%string as url eqn:Hurl.
  split; [exact Hstart|]. split; [exact Hcount|].
  assert (Hlen : (List.length (Js.split "," url) <? 2)%nat = false).
  { apply Nat.ltb_ge. rewrite split_length. lia. }
  unfold validateImage. rewrite Hne, Hstart. cbn [negb]. rewrite Hlen.
  destruct (negb _ || negb _); tauto.
Qed.

Lemma result_image_is_data_url_witness :
  Js.startsWith "data:image/png;base64,QUJD" "data:" = true /\
  1 <= Js.countChar "," "data:image/png;base64,QUJD".
Proof.
  destruct (result_image_is_data_url
              "key" (stubModel (inr imageReply))
              (Some (mkRequestData (Some "a cat") None None))
              "data:image/png;base64,QUJD" eq_refl) as [H1 [H2 _]].
  split; [exact H1|exact H2].
Defined.

(** ** Invariants of the encoded history *)





(** The images of the history, unlike the image to edit, are not
    validated: any second segment is sent. *)
Example history_image_not_validated :
  snd (POST "key" (stubModel (inr imageReply))
         (Some (mkRequestData (Some "edit") None
                  (Some [mkHistoryItem user
                           [mkHistoryPart None (Some "see: @,!! ")]])))) =
    [mkModelCall
       [mkFormattedHistoryItem user [inlineDataPart "!! " "image/jpeg"]]
       [textPart "edit"]].
Proof. reflexivity. Qed.

(** ** The checks of the message builder *)




(** ** A conversation of texts *)

Lemma formatPart_text (r : Role) (p : HistoryPart) :
  Js.truthyOpt (text p) = true ->
  part_text (formatPart r p) = text p /\ inlineData (formatPart r p) = None.
Proof.
  unfold formatPart, Js.truthyOpt. destruct (text p) as [t|]; [|discriminate].
  intros ->. split; reflexivity.
Qed.

(** X11: a history in which every part has a non-empty text is encoded
    verbatim: the turns that have parts keep their order, their roles and
    the texts of their parts, and no inline data is sent, so an image that
    accompanies a text in a part is left out. *)
Theorem text_history_verbatim (items : list HistoryItem) :
  (forall i p, In i items -> In p (parts i) -> Js.truthyOpt (text p) = true) ->
  map (fun t => (fmt_role t, map part_text (fmt_parts t)))
      (formattedHistory (Some items)) =
    map (fun i => (role i, map text (parts i))) (filter hasParts items) /\
  (forall t w, In t (formattedHistory (Some items)) -> In w (fmt_parts t) ->
     inlineData w = None).
Proof.
  intros Htext. rewrite formatHistory_items. split.
  - rewrite map_map. apply map_ext_in. intros i Hi.
    apply filter_In in Hi. destruct Hi as [Hi _].
    rewrite formatItem_role, formatItem_parts, map_map. f_equal.
    apply map_ext_in. intros p Hp.
    now apply formatPart_text, (Htext i p).
  - intros t w Ht Hw. apply in_map_iff in Ht. destruct Ht as [i [<- Hi]].
    apply filter_In in Hi. destruct Hi as [Hi _].
    rewrite formatItem_parts in Hw. apply in_map_iff in Hw.
    destruct Hw as [p [<- Hp]].
    now apply formatPart_text, (Htext i p).
Qed.

Definition captionedHistory : list HistoryItem :=
  [mkHistoryItem user [mkHistoryPart (Some "make it blue")
                                     (Some "data:image/png;base64,QUJD")];
   mkHistoryItem model [];
   mkHistoryItem model [mkHistoryPart (Some "done") None]].

Lemma text_history_verbatim_witness :
  map (fun t => (fmt_role t, map part_text (fmt_parts t)))
      (formattedHistory (Some captionedHistory)) =
    [(user, [Some "make it blue"]); (model, [Some "done"])].
Proof.
  refine (proj1 (text_history_verbatim captionedHistory _)).
  intros i p [<-|[<-|[<-|[]]]]; simpl; intros H;
    try contradiction; destruct H as [<-|[]]; reflexivity.
Defined.

(** * The prompt form: [ImagePromptInput], lines 14-87 *)

(** [s.trimStart()], on the whitespace of code units below 256. *)
Fixpoint trimStart (s : string) : string :=
  match s with
  | EmptyString => EmptyString
  | String c s' => if Js.isSpace c then trimStart s' else s
  end.

(** [s.trimEnd()] *)
Fixpoint trimEnd (s : string) : string :=
  match s with
  | EmptyString => EmptyString
  | String c s' =>
      match trimEnd s' with
      | EmptyString => if Js.isSpace c then EmptyString else String c EmptyString
      | String d t => String c (String d t)
      end
  end.

(** [s.trim()] *)
Definition trim (s : string) : string := trimEnd (trimStart s).

(** What a handler of the form does: the calls of [onSubmit], the prompt
    held by the state after it, and whether [e.preventDefault()] ran. *)
Record FormStep : Type := mkFormStep {
  submitted : list string;
  nextPrompt : string;
  defaultPrevented : bool
}.

(** [handleSubmit], lines 21-30, for the state [prompt] and the property
    [isLoading]. *)
Definition handleSubmit (prompt : string) (isLoading : bool) : FormStep :=
  if Js.truthy (trim prompt) && negb isLoading then
    mkFormStep [trim prompt] (if negb isLoading then "" else prompt) true
  else mkFormStep [] prompt true.

(** [handleKeyDown], lines 32-42, for the key [e.key]. *)
Definition handleKeyDown (key prompt : string) (isLoading : bool) : FormStep :=
  if (key =? "Enter") && Js.truthy (trim prompt) && negb isLoading then
    mkFormStep [trim prompt] (if negb isLoading then "" else prompt) true
  else mkFormStep [] prompt false.

(** The [disabled] attribute of the submit button, line 71. *)
Definition submitDisabled (prompt : string) (isLoading : bool) : bool :=
  negb (Js.truthy (trim prompt)) || isLoading.

(** ** Facts about [trim] *)

Lemma trimStart_head (s : string) (c : ascii) (t : string) :
  trimStart s = String c t -> Js.isSpace c = false.
Proof.
  induction s as [|d s IH]; simpl; [discriminate|].
  destruct (Js.isSpace d) eqn:E; [exact IH|].
  intros H. inversion H. now subst.
Qed.

Lemma trimStart_fixed (c : ascii) (t : string) :
  Js.isSpace c = false -> trimStart (String c t) = String c t.
Proof. intros H. simpl. now rewrite H. Qed.

Lemma trimStart_empty (s : string) :
  trimStart s = "" <-> Js.allChars Js.isSpace s = true.
Proof.
  induction s as [|d s IH]; simpl; [tauto|].
  destruct (Js.isSpace d); simpl; [exact IH|]. split; discriminate.
Qed.

(** [trimEnd] keeps a first character that is not whitespace. *)
Lemma trimEnd_head (c : ascii) (t : string) :
  Js.isSpace c = false -> exists u, trimEnd (String c t) = String c u.
Proof.
  intros H. simpl. destruct (trimEnd t) as [|d u].
  - rewrite H. now exists "".
  - now exists (String d u).
Qed.

Lemma trimEnd_idem (s : string) : trimEnd (trimEnd s) = trimEnd s.
Proof.
  induction s as [|c s IH]; [reflexivity|]. simpl.
  destruct (trimEnd s) as [|d t] eqn:E.
  - destruct (Js.isSpace c) eqn:Hc; [reflexivity|]. simpl. now rewrite Hc.
  - change (trimEnd (String c (String d t)))
      with (match trimEnd (String d t) with
            | EmptyString =>
                if Js.isSpace c then EmptyString else String c EmptyString
            | String d' t' => String c (String d' t')
            end).
    now rewrite IH.
Qed.

Lemma trimEnd_empty (s : string) :
  trimEnd s = "" <-> Js.allChars Js.isSpace s = true.
Proof.
  induction s as [|c s IH]; simpl; [tauto|].
  destruct (trimEnd s) as [|d t].
  - destruct (Js.isSpace c); simpl.
    + split; [intros _; now apply IH|reflexivity].
    + split; discriminate.
  - split; [discriminate|]. intros H. apply andb_true_iff in H.
    destruct H as [_ H]. apply IH in H. discriminate.
Qed.

Lemma trim_empty (s : string) :
  trim s = "" <-> Js.allChars Js.isSpace s = true.
Proof.
  unfold trim. rewrite <- trimStart_empty. split.
  - intros H. destruct (trimStart s) as [|c t] eqn:E; [reflexivity|].
    pose proof (trimStart_head s c t E) as Hc.
    destruct (trimEnd_head c t Hc) as [u Hu]. congruence.
  - intros ->. reflexivity.
Qed.

(** A trimmed string has no whitespace at either end. *)
Lemma trim_fixed (s : string) :
  trimStart (trim s) = trim s /\ trimEnd (trim s) = trim s.
Proof.
  unfold trim. split; [|apply trimEnd_idem].
  destruct (trimStart s) as [|c t] eqn:E; [reflexivity|].
  pose proof (trimStart_head s c t E) as Hc.
  destruct (trimEnd_head c t Hc) as [u ->]. now apply trimStart_fixed.
Qed.

Lemma trim_idem (s : string) : trim (trim s) = trim s.
Proof.
  destruct (trim_fixed s) as [H1 H2]. unfold trim at 1. now rewrite H1.
Qed.

(** ** Properties of the form *)

(** X12: the form submits at most one value per event; a value it
    submits is the trimmed prompt, is not empty, has no whitespace at its
    ends and is not made of whitespace, and is submitted only while no
    request is loading, after which the prompt state is cleared; when
    nothing is submitted the prompt state is unchanged. *)
Theorem form_submits_trimmed_prompt (prompt : string) (isLoading : bool) :
  List.length (submitted (handleSubmit prompt isLoading)) <= 1 /\
  (forall v, In v (submitted (handleSubmit prompt isLoading)) ->
     isLoading = false /\
     v = trim prompt /\
     v <> "" /\
     trimStart v = v /\ trimEnd v = v /\
     Js.allChars Js.isSpace v = false /\
     nextPrompt (handleSubmit prompt isLoading) = "") /\
  (submitted (handleSubmit prompt isLoading) = [] ->
   nextPrompt (handleSubmit prompt isLoading) = prompt).
Proof.
  unfold handleSubmit.
  destruct (Js.truthy (trim prompt)) eqn:Ht; simpl.
  2:{ split; [lia|]. split; [intros v []|reflexivity]. }
  destruct isLoading; simpl.
  { split; [lia|]. split; [intros v []|reflexivity]. }
  apply truthy_nonempty in Ht.
  split; [lia|]. split; [|discriminate].
  intros v [<-|[]]. destruct (trim_fixed prompt) as [H1 H2].
  repeat split; try assumption.
  destruct (Js.allChars Js.isSpace (trim prompt)) eqn:E; [|reflexivity].
  apply trim_empty in E. rewrite trim_idem in E. contradiction.
Qed.

Lemma form_submits_trimmed_prompt_witness :
  submitted (handleSubmit "  a cat  " false) = ["a cat"] /\
  trimEnd "a cat" = "a cat".
Proof.
  split; [reflexivity|].
  refine (proj1 (proj2 (proj2 (proj2 (proj2
            (proj1 (proj2 (form_submits_trimmed_prompt "  a cat  " false))
               "a cat" _)))))).
  left. reflexivity.
Defined.

(** X13: the two ways to submit agree, and the button tells the truth:
    pressing Enter submits what the submit event would submit and leaves
    the same prompt state, any other key does nothing, the submit
    button is disabled exactly when a submit event would submit nothing,
    and a key event has its default prevented exactly when it submits. *)
Theorem submission_paths_agree (key prompt : string) (isLoading : bool) :
  submitted (handleKeyDown "Enter" prompt isLoading) =
    submitted (handleSubmit prompt isLoading) /\
  nextPrompt (handleKeyDown "Enter" prompt isLoading) =
    nextPrompt (handleSubmit prompt isLoading) /\
  (key <> "Enter" ->
   handleKeyDown key prompt isLoading = mkFormStep [] prompt false) /\
  (submitDisabled prompt isLoading = true <->
   submitted (handleSubmit prompt isLoading) = []) /\
  (defaultPrevented (handleKeyDown key prompt isLoading) = true <->
   submitted (handleKeyDown key prompt isLoading) <> []).
Proof.
  unfold handleKeyDown, handleSubmit, submitDisabled.
  change ("Enter" =? "Enter") with true. cbn [andb].
  destruct (Js.truthy (trim prompt)); destruct isLoading; simpl;
    repeat split; try reflexivity; try discriminate; try congruence;
    try (intros Hk; apply String.eqb_neq in Hk; now rewrite Hk);
    destruct (key =? "Enter"); simpl; congruence.
Qed.

Lemma submission_paths_agree_witness :
  handleKeyDown "a" "a cat" false = mkFormStep [] "a cat" false.
Proof.
  refine (proj1 (proj2 (proj2
            (submission_paths_agree "a" "a cat" false))) _).
  discriminate.
Defined.

(** ** The form in front of the handler *)

(** X14: a value submitted by the form always passes the prompt check of
    the handler: sent as the prompt of a request whose image passes
    validation (or is absent), with the key configured, it makes the
    handler call the model once, with the value as the text of the first
    part of the message; the answer is never the "Prompt is required"
    failure. *)
Theorem form_prompt_reaches_model (prompt : string) (isLoading : bool)
    (v key : string) (m : Model) (img : option string)
    (h : option (list HistoryItem)) :
  In v (submitted (handleSubmit prompt isLoading)) ->
  Js.truthy key = true ->
  validateImage img = None ->
  snd (POST key m (Some (mkRequestData (Some v) img h))) =
    [mkModelCall (formattedHistory h) (textPart v :: editImageParts img)] /\
  error (json (fst (POST key m (Some (mkRequestData (Some v) img h))))) <>
    Some "Prompt is required".
Proof.
  intros Hv Hkey Himg.
  assert (Hne : Js.truthy v = true).
  { unfold handleSubmit in Hv.
    destruct (Js.truthy (trim prompt)) eqn:Ht; simpl in Hv; [|destruct Hv].
    destruct (negb isLoading); simpl in Hv; [|destruct Hv].
    destruct Hv as [<-|[]]. exact Ht. }
  assert (Hvalid : validRequest key (mkRequestData (Some v) img h) v)
    by (repeat split; assumption).
  rewrite (POST_valid key m _ v Hvalid). simpl. split; [reflexivity|].
  destruct (respond_cases
              (m (formattedHistory h) (textPart v :: editImageParts img)))
    as [[i [desc ->]]|[err [det [-> Herr]]]]; simpl;
    [discriminate|congruence].
Qed.

Lemma form_prompt_reaches_model_witness :
  snd (POST "key" (stubModel (inr imageReply))
         (Some (mkRequestData (Some "a cat") None None))) =
    [mkModelCall [] [textPart "a cat"]].
Proof.
  refine (proj1 (form_prompt_reaches_model
                   "  a cat  " false "a cat" "key" (stubModel (inr imageReply))
                   None None _ eq_refl eq_refl)).
  left. reflexivity.
Defined.
